(** * Task-graph scheduler: the message handlers of [scheduler/handlers.js]

    A shallow embedding of the handlers that react to task-completed and
    task-failed messages, over an explicit model of the entity store, the
    event publisher and the execution queue, followed by the properties of
    the handlers. *)

From Stdlib Require Import Ascii.
From stdpp Require Import base option list strings gmap.

Local Open Scope Z_scope.

(** ** Data model *)

(** [taskGraph.state]: one of the strings 'running', 'blocked', 'finished'. *)
Inductive GraphState := running | blocked | finished.

Global Instance GraphState_eq_dec : EqDecision GraphState.
Proof. solve_decision. Defined.

(** The object stored in [task.resolution]; a url that the message does not
    carry (or that the handler does not copy) is [None]. *)
Record Resolution := mkResolution {
  completed : bool;
  success   : bool;
  resultUrl : option string;
  logsUrl   : option string
}.

Global Instance Resolution_eq_dec : EqDecision Resolution.
Proof. solve_decision. Defined.

(** Task entity: the fields the handlers read or write.  [resolution] is
    [None] while the task is live; [rerunsLeft] is the integer that the
    number holds (its one arithmetic operation is [js_minus_one] below). *)
Record Task := mkTask {
  taskGraphId : string;
  taskId      : string;
  rerunsLeft  : Z;
  dependents  : list string;
  requires    : list string;
  resolution  : option Resolution
}.

Global Instance Task_eq_dec : EqDecision Task.
Proof. solve_decision. Defined.

Definition set_rerunsLeft (n : Z) (t : Task) : Task :=
  mkTask (taskGraphId t) (taskId t) n (dependents t) (requires t) (resolution t).

Definition set_resolution (r : Resolution) (t : Task) : Task :=
  mkTask (taskGraphId t) (taskId t) (rerunsLeft t) (dependents t) (requires t) (Some r).

(** TaskGraph entity. *)
Record TaskGraph := mkTaskGraph {
  graphId      : string;
  state        : GraphState;
  requiresLeft : list string;
  routing      : string
}.

Global Instance TaskGraph_eq_dec : EqDecision TaskGraph.
Proof. solve_decision. Defined.

Definition set_state (s : GraphState) (g : TaskGraph) : TaskGraph :=
  mkTaskGraph (graphId g) s (requiresLeft g) (routing g).

Definition set_requiresLeft (l : list string) (g : TaskGraph) : TaskGraph :=
  mkTaskGraph (graphId g) (state g) l (routing g).

(** Modelled from the spec: [taskGraph.status()] lives in data.js, which is
    not part of the sources; the spec calls it "the graph's current status
    snapshot".  The snapshot carries the graph's identifier and state. *)
Record Status := mkStatus {
  status_taskGraphId : string;
  status_state       : GraphState
}.

Definition status (g : TaskGraph) : Status := mkStatus (graphId g) (state g).

(** An inbound broker message: [message.exchange] and the fields of
    [message.payload] the handlers read. *)
Record Message := mkMessage {
  exchange               : string;
  payload_status_routing : string;
  payload_status_taskId  : string;
  payload_success        : bool;
  payload_resultUrl      : option string;
  payload_logsUrl        : option string
}.

(** Events accepted by the broker, in order of publication. *)
Inductive Event :=
| taskGraphFinished (st : Status) (route : string)
| taskGraphBlocked (st : Status) (blockingTaskId : string) (route : string).

(** Requests issued to the execution queue. *)
Inductive QueueCall :=
| rerunTask (tid : string)
| scheduleTask (tid : string).

Inductive Error :=
| NotFound
| AssertionError (msg : string)
| QueueError
| PublishError
| UnexpectedExchange (exch : string).

(** A promise chain that was started without anybody holding its promise:
    the work of [blockTaskGraph] for a graph and a blocking task. *)
Inductive Job := BlockJob (gid : string) (blockingTaskId : string).

(** The world a handler runs in: the two entity tables, what the broker and
    the queue have received, the chains that are running detached from any
    handler, and the rejections nobody handled. *)
Record World := mkWorld {
  tasks      : gmap (string * string) Task;
  taskGraphs : gmap string TaskGraph;
  published  : list Event;
  queueCalls : list QueueCall;
  detached   : list Job;
  unhandled  : list Error
}.

Definition set_tasks (m : gmap (string * string) Task) (w : World) : World :=
  mkWorld m (taskGraphs w) (published w) (queueCalls w) (detached w) (unhandled w).

Definition set_taskGraphs (m : gmap string TaskGraph) (w : World) : World :=
  mkWorld (tasks w) m (published w) (queueCalls w) (detached w) (unhandled w).

Definition add_published (e : Event) (w : World) : World :=
  mkWorld (tasks w) (taskGraphs w) (published w ++ [e]) (queueCalls w) (detached w) (unhandled w).

Definition add_queueCall (c : QueueCall) (w : World) : World :=
  mkWorld (tasks w) (taskGraphs w) (published w) (queueCalls w ++ [c]) (detached w) (unhandled w).

Definition add_detached (j : Job) (w : World) : World :=
  mkWorld (tasks w) (taskGraphs w) (published w) (queueCalls w) (detached w ++ [j]) (unhandled w).

Definition set_detached (js : list Job) (w : World) : World :=
  mkWorld (tasks w) (taskGraphs w) (published w) (queueCalls w) js (unhandled w).

Definition add_unhandled (e : Error) (w : World) : World :=
  mkWorld (tasks w) (taskGraphs w) (published w) (queueCalls w) (detached w) (unhandled w ++ [e]).

(** The collaborators a [Handlers] object holds ([this.publisher],
    [this.queue], [this.Task], [this.TaskGraph], the two bindings) as far as
    they decide what a handler observes: which exchange each binding names,
    which remote calls are accepted, and the rows that concurrent writers
    commit between a load and the write of a [modify]. *)
Record Env := mkEnv {
  completedExchange   : string;
  failedExchange      : string;
  rerun_accepted      : string -> bool;
  schedule_accepted   : string -> bool;
  publish_accepted    : Event -> bool;
  Task_conflicts      : list Task;
  TaskGraph_conflicts : list TaskGraph
}.

(** ** Promises *)

Inductive Settled (A : Type) :=
| Resolved (a : A)
| Rejected (e : Error).
Arguments Resolved {A} a.
Arguments Rejected {A} e.

(** A promise chain: run from a world, it leaves a world and settles. *)
Definition Promise (A : Type) : Type := World -> World * Settled A.

Definition resolve {A} (a : A) : Promise A := fun w => (w, Resolved a).
Definition reject {A} (e : Error) : Promise A := fun w => (w, Rejected e).

(** [p.then(f)]: a rejection of [p] skips [f]. *)
Definition then_ {A B} (f : A -> Promise B) (p : Promise A) : Promise B :=
  fun w =>
    match p w with
    | (w', Resolved a) => f a w'
    | (w', Rejected e) => (w', Rejected e)
    end.

Global Instance Promise_ret : MRet Promise := @resolve.
Global Instance Promise_bind : MBind Promise := @then_.

(** [assert(cond, msg)] *)
Definition assert (cond : bool) (msg : string) : Promise unit :=
  if cond then resolve tt else reject (AssertionError msg).

(** ** Collaborators *)

(** Modelled from the spec: [Task.load] and [TaskGraph.load] live in
    data.js, which is not part of the sources; section 4.1 gives
    "load(key) -> entity | NotFound".  The key of a row is the entity's own
    identifier, so a row stored under another key is not an entity of this
    one. *)
Definition Task_load (gid tid : string) : Promise Task :=
  fun w =>
    match tasks w !! (gid, tid) with
    | Some t =>
        if bool_decide (taskGraphId t = gid ∧ taskId t = tid)
        then (w, Resolved t) else (w, Rejected NotFound)
    | None => (w, Rejected NotFound)
    end.

Definition TaskGraph_load (gid : string) : Promise TaskGraph :=
  fun w =>
    match taskGraphs w !! gid with
    | Some g =>
        if bool_decide (graphId g = gid)
        then (w, Resolved g) else (w, Rejected NotFound)
    | None => (w, Rejected NotFound)
    end.

(** Modelled from the spec: [entity.modify] lives in the entity base class,
    which is not part of the sources; section 4.1: the modifier mutates the
    entity in place, and "on conflict it reloads the entity and re-invokes
    the mutator from scratch until the write succeeds".  A modifier of the
    handlers also assigns one variable of the enclosing function; it is
    modelled as a function from the variable's value and the entity to the
    new value and the mutated entity.  [conflicts] are the rows found on
    each reload; the last invocation is the one whose write is accepted. *)
Fixpoint replay {V E} (modifier : V -> E -> V * E) (v : V) (this : E)
    (conflicts : list E) : V * E :=
  match conflicts with
  | [] => modifier v this
  | reloaded :: later => replay modifier (modifier v this).1 reloaded later
  end.

Definition Task_modify {V} (that : Env) (task : Task)
    (modifier : V -> Task -> V * Task) (v : V) : Promise (V * Task) :=
  fun w =>
    let r := replay modifier v task (Task_conflicts that) in
    (set_tasks (<[(taskGraphId task, taskId task) := r.2]> (tasks w)) w, Resolved r).

Definition TaskGraph_modify {V} (that : Env) (taskGraph : TaskGraph)
    (modifier : V -> TaskGraph -> V * TaskGraph) (v : V) : Promise (V * TaskGraph) :=
  fun w =>
    let r := replay modifier v taskGraph (TaskGraph_conflicts that) in
    (set_taskGraphs (<[graphId taskGraph := r.2]> (taskGraphs w)) w, Resolved r).

(** [publisher.taskGraphFinished] / [publisher.taskGraphBlocked]: one call
    to the broker; the event is published when the broker accepts it. *)
Definition publish (that : Env) (e : Event) : Promise unit :=
  fun w =>
    if publish_accepted that e then (add_published e w, Resolved tt)
    else (w, Rejected PublishError).

(** [queue.rerunTask(taskId)] *)
Definition queue_rerunTask (that : Env) (tid : string) : Promise unit :=
  fun w =>
    (add_queueCall (rerunTask tid) w,
     if rerun_accepted that tid then Resolved tt else Rejected QueueError).

(** [queue.scheduleTask(taskId, ...)] *)
Definition queue_scheduleTask (that : Env) (tid : string) : Promise unit :=
  fun w =>
    (add_queueCall (scheduleTask tid) w,
     if schedule_accepted that tid then Resolved tt else Rejected QueueError).

(** Start a chain and drop its promise. *)
Definition detach (j : Job) : Promise unit :=
  fun w => (add_detached j w, Resolved tt).

(** lodash: [_.contains(array, value)] and [_.without(array, value)]. *)
Definition contains (l : list string) (x : string) : bool := bool_decide (x ∈ l).
Definition without (l : list string) (x : string) : list string :=
  filter (λ y, y ≠ x) l.

(** [s.split(sep)] for a separator of one character. *)
Fixpoint split (sep : ascii) (s : string) : list string :=
  match s with
  | EmptyString => [EmptyString]
  | String c rest =>
      if Ascii.eqb c sep then EmptyString :: split sep rest
      else match split sep rest with
           | [] => [String c EmptyString]
           | piece :: pieces => String c piece :: pieces
           end
  end.

(** [message.payload.status.routing.split('.')[1]]; [None] is undefined. *)
Definition routing_taskGraphId (message : Message) : option string :=
  split "."%char (payload_status_routing message) !! 1%nat.

(** The numbers of the source are IEEE-754 doubles, and [rerunsLeft] holds
    the integers among them: a significand below 2^53 in size times a power
    of two, up to 2^971. *)
Definition is_double (x : Z) : Prop :=
  ∃ m e : Z, Z.abs m < 2 ^ 53 ∧ 0 ≤ e ≤ 971 ∧ x = m * 2 ^ e.

(** [x - 1] as [this.rerunsLeft -= 1] computes it: the double nearest to the
    exact difference, a tie going to the even significand.  Up to 2^53 in
    size the difference is exact.  Between 2^53 and 2^54 the doubles are the
    even integers, the difference is odd and lies halfway between [x - 2]
    and [x], and the one that is a multiple of 4 has the even significand.
    From 2^54 on the difference is nearest to [x] itself. *)
Definition js_minus_one (x : Z) : Z :=
  if (- 2 ^ 53 <? x) && (x <=? 2 ^ 53) then x - 1
  else if (- 2 ^ 54 <? x) && (x <? 2 ^ 54) then
    (if x mod 4 =? 0 then x else x - 2)
  else x.

(** ** The handlers *)

Module Handlers.

(** The modifier of [checkTaskGraphFinished]; the variable it assigns is
    [taskGraphFinishedNow]. *)
Definition finish_modifier (successfulTaskId : string)
    (taskGraphFinishedNow : bool) (this : TaskGraph) : bool * TaskGraph :=
  let taskGraphFinishedNow := false in
  if negb (contains (requiresLeft this) successfulTaskId) then
    (taskGraphFinishedNow, this)
  else
    let this := set_requiresLeft (without (requiresLeft this) successfulTaskId) this in
    let taskGraphFinishedNow := (length (requiresLeft this) =? 0)%nat in
    if taskGraphFinishedNow then (taskGraphFinishedNow, set_state finished this)
    else (taskGraphFinishedNow, this).

(** [var taskGraphFinishedNow;] starts undefined, which the test after the
    modify reads as false. *)
Definition checkTaskGraphFinished (that : Env)
    (taskGraphId successfulTaskId : string) : Promise unit :=
  taskGraph ← TaskGraph_load taskGraphId;
  '(taskGraphFinishedNow, taskGraph) ←
    TaskGraph_modify that taskGraph (finish_modifier successfulTaskId) false;
  if (taskGraphFinishedNow : bool) then
    assert (bool_decide (state taskGraph = finished)) "taskGraph should be finished!";;
    publish that (taskGraphFinished (status taskGraph) (routing taskGraph))
  else resolve tt.

(** The modifier of [blockTaskGraph]; the variable it assigns is
    [wasRunning]. *)
Definition block_modifier (wasRunning : bool) (this : TaskGraph) : bool * TaskGraph :=
  let wasRunning := bool_decide (state this = running) in
  if wasRunning then (wasRunning, set_state blocked this)
  else (wasRunning, this).

(** The chain [this.TaskGraph.load(taskGraphId).then(...)] that
    [blockTaskGraph] starts. *)
Definition blockTaskGraph_chain (that : Env)
    (taskGraphId blockingTaskId : string) : Promise unit :=
  taskGraph ← TaskGraph_load taskGraphId;
  '(wasRunning, taskGraph) ← TaskGraph_modify that taskGraph block_modifier false;
  if (wasRunning : bool) then
    assert (bool_decide (state taskGraph = blocked)) "taskGraph should be blocked now";;
    publish that (taskGraphBlocked (status taskGraph) blockingTaskId (routing taskGraph))
  else resolve tt.

(** [blockTaskGraph] starts the chain and returns nothing: there is no
    [return] in front of [this.TaskGraph.load(...)], so the caller's [then]
    receives undefined and its promise resolves without the chain. *)
Definition blockTaskGraph (that : Env)
    (taskGraphId blockingTaskId : string) : Promise unit :=
  detach (BlockJob taskGraphId blockingTaskId).

(** The modifier of [rerunTaskOrBlock]; the variable it assigns is
    [has_rerun_available], and [this.rerunsLeft -= 1] is a subtraction of
    doubles. *)
Definition rerun_modifier (message : Message)
    (has_rerun_available : bool) (this : Task) : bool * Task :=
  let has_rerun_available := rerunsLeft this >? 0 in
  if has_rerun_available then
    (has_rerun_available, set_rerunsLeft (js_minus_one (rerunsLeft this)) this)
  else
    (has_rerun_available,
     set_resolution
       (mkResolution true false (payload_resultUrl message) (payload_logsUrl message))
       this).

Definition rerunTaskOrBlock (that : Env) (task : Task) (message : Message)
    : Promise unit :=
  '(has_rerun_available, task) ← Task_modify that task (rerun_modifier message) true;
  if (has_rerun_available : bool) then
    queue_rerunTask that (taskId task)
  else
    blockTaskGraph that (taskGraphId task) (taskId task).

(** The modifier of [failed]; it assigns no variable. *)
Definition failed_modifier (_ : unit) (this : Task) : unit * Task :=
  (tt, set_resolution (mkResolution false false None None) this).

(** [Task.load(undefined, taskId)], when the routing key has no second
    piece, finds no entity. *)
Definition failed (that : Env) (message : Message) : Promise unit :=
  match routing_taskGraphId message with
  | None => reject NotFound
  | Some taskGraphId =>
      let blockingTaskId := payload_status_taskId message in
      task ← Task_load taskGraphId blockingTaskId;
      _ ← Task_modify that task failed_modifier tt;
      blockTaskGraph that taskGraphId blockingTaskId
  end.

(** The modifier of the success branch of [completed]. *)
Definition success_modifier (message : Message) (_ : unit) (this : Task)
    : unit * Task :=
  (tt, set_resolution
         (mkResolution true true (payload_resultUrl message) (payload_logsUrl message))
         this).

(** Has the task [tid] of graph [gid] a resolution with [success]? *)
Definition succeeded (w : World) (gid tid : string) : bool :=
  match tasks w !! (gid, tid) with
  | Some t => match resolution t with Some r => success r | None => false end
  | None => false
  end.

(** Modelled from the spec: [helpers.scheduleDependentTasks] lives in
    helpers.js, which is not part of the sources; section 4.4: "for each
    dependent d in the same graph, load d; if every task in d.requires now
    has a resolution.success = true, submit d to the external execution
    queue". *)
Fixpoint scheduleDependents (that : Env) (gid : string) (ds : list string)
    : Promise unit :=
  match ds with
  | [] => resolve tt
  | d :: ds' =>
      dependent ← Task_load gid d;
      ready ← (fun w => (w, Resolved (forallb (succeeded w gid) (requires dependent))));
      (if (ready : bool) then queue_scheduleTask that d else resolve tt);;
      scheduleDependents that gid ds'
  end.

Definition scheduleDependentTasks (that : Env) (task : Task) : Promise unit :=
  scheduleDependents that (taskGraphId task) (dependents task).

(** As in [failed], a routing key without a second piece makes
    [Task.load] find nothing. *)
Definition completed (that : Env) (message : Message) : Promise unit :=
  match routing_taskGraphId message with
  | None => reject NotFound
  | Some taskGraphId =>
      let completedTaskId := payload_status_taskId message in
      task ← Task_load taskGraphId completedTaskId;
      if payload_success message then
        '(_, task) ← Task_modify that task (success_modifier message) tt;
        if negb (length (dependents task) =? 0)%nat then
          scheduleDependentTasks that task
        else
          checkTaskGraphFinished that taskGraphId (taskId task)
      else
        rerunTaskOrBlock that task message
  end.

(** The listener's callback for ['message'] in [setup]. *)
Definition on_message (that : Env) (message : Message) : Promise unit :=
  if String.eqb (exchange message) (completedExchange that) then
    completed that message
  else if String.eqb (exchange message) (failedExchange that) then
    failed that message
  else
    reject (UnexpectedExchange (exchange message)).

End Handlers.

(** ** Running a handler *)

Definition run_job (that : Env) (j : Job) : Promise unit :=
  match j with
  | BlockJob gid tid => Handlers.blockTaskGraph_chain that gid tid
  end.

(** Let one detached chain run to its end; its rejection has no handler. *)
Definition run_one (that : Env) (w : World) (j : Job) : World :=
  match run_job that j w with
  | (w', Resolved _) => w'
  | (w', Rejected e) => add_unhandled e w'
  end.

(** Let the detached chains run to their end. *)
Definition run_detached (that : Env) (w : World) : World :=
  foldl (run_one that) (set_detached [] w) (detached w).

(** The handler's promise settles (this is what the listener acknowledges
    the message on), then what it left detached runs. *)
Definition run_to_end (that : Env) (handler : Promise unit) (w : World) : World :=
  run_detached that (handler w).1.

Definition handle (that : Env) (message : Message) (w : World) : World :=
  run_to_end that (Handlers.on_message that message) w.

(** The row the accepted write of a [modify] was computed from: the loaded
    one, or the last one reloaded after a conflict. *)
Fixpoint commit_base {E} (this : E) (conflicts : list E) : E :=
  match conflicts with
  | [] => this
  | reloaded :: later => commit_base reloaded later
  end.

(** A modifier that assigns its variable before reading it. *)
Definition reinitialises {V E} (modifier : V -> E -> V * E) : Prop :=
  ∀ v v' this, modifier v this = modifier v' this.

(** Order of the graph states along the lifecycle. *)
Definition rank (s : GraphState) : nat :=
  match s with running => 0 | blocked => 1 | finished => 2 end.

Definition is_blocked_event (e : Event) : bool :=
  match e with taskGraphBlocked _ _ _ => true | taskGraphFinished _ _ => false end.

(** The graph table moves along the lifecycle order. *)
Definition graphs_advance (m m' : gmap string TaskGraph) : Prop :=
  ∀ gid g0, m !! gid = Some g0 ->
    ∃ g', m' !! gid = Some g' ∧ (rank (state g0) ≤ rank (state g'))%nat.

(** The message is an unsuccessful completion of a task that has reruns
    left. *)
Definition consumes_rerun (that : Env) (message : Message) (w : World) : Prop :=
  exchange message = completedExchange that ∧ payload_success message = false ∧
  ∃ gid t, routing_taskGraphId message = Some gid ∧
    tasks w !! (gid, payload_status_taskId message) = Some t ∧ 0 < rerunsLeft t.

(** No later finish check for [tid] finds work in graph [gid]. *)
Definition finish_settled (w : World) (gid tid : string) : Prop :=
  ∀ g, taskGraphs w !! gid = Some g -> graphId g = gid -> tid ∉ requiresLeft g.

(** No later block transition finds graph [gid] running. *)
Definition block_settled (w : World) (gid : string) : Prop :=
  ∀ g, taskGraphs w !! gid = Some g -> graphId g = gid -> state g ≠ running.

(** ** Sample worlds and messages *)

Module Sample.
Definition broker_up : Env :=
  mkEnv "task-completed" "task-failed" (λ _, true) (λ _, true) (λ _, true) [] [].
Definition broker_down : Env :=
  mkEnv "task-completed" "task-failed" (λ _, true) (λ _, true) (λ _, false) [] [].
Definition T : Task := mkTask "G" "T" 1 [] [] None.
Definition G : TaskGraph := mkTaskGraph "G" running ["T"] "route.G".
Definition w0 : World := mkWorld {[ ("G", "T") := T ]} {[ "G" := G ]} [] [] [] [].
Definition failed_T : Message :=
  mkMessage "task-failed" "sched.G.T" "T" false None None.
Definition succeeded_T : Message :=
  mkMessage "task-completed" "sched.G.T" "T" true (Some "result") (Some "logs").
Definition unsuccessful_T : Message :=
  mkMessage "task-completed" "sched.G.T" "T" false (Some "result") (Some "logs").
Definition stray : Message :=
  mkMessage "task-pending" "sched.G.T" "T" false None None.
Definition w_succeeded : World :=
  mkWorld {[ ("G", "T") :=
               mkTask "G" "T" 1 [] []
                 (Some (mkResolution true true (Some "result") (Some "logs"))) ]}
          {[ "G" := mkTaskGraph "G" finished [] "route.G" ]} [] [] [] [].
(** Task T with no rerun left. *)
Definition w_spent : World :=
  mkWorld {[ ("G", "T") := mkTask "G" "T" 0 [] [] None ]} {[ "G" := G ]} [] [] [] [].
(** Graph G with two leaves left, as loaded by the handler of T, and a
    concurrent writer that has removed U by the time T's write is tried. *)
Definition G_TU : TaskGraph := mkTaskGraph "G" running ["T"; "U"] "route.G".
Definition w_TU : World :=
  mkWorld {[ ("G", "T") := T ]} {[ "G" := G_TU ]} [] [] [] [].
Definition contended : Env :=
  mkEnv "task-completed" "task-failed" (λ _, true) (λ _, true) (λ _, true) [] [G].
(** A store with no rows, and one with task T but without its graph. *)
Definition w_empty : World := mkWorld ∅ ∅ [] [] [] [].
Definition w_orphan : World := mkWorld {[ ("G", "T") := T ]} ∅ [] [] [] [].
(** Two graphs, each with one task. *)
Definition w_two : World :=
  mkWorld (<[("H", "U") := mkTask "H" "U" 0 [] [] None]> {[ ("G", "T") := T ]})
          (<["H" := mkTaskGraph "H" running ["U"] "route.H"]> {[ "G" := G ]})
          [] [] [] [].
End Sample.

(** ** Construction and setup *)

(** The [options] object as the constructor tests it: whether [options.Task]
    and [options.TaskGraph] are truthy, whether the three collaborators are
    instances of the classes asked for, and the three strings ([None] is
    undefined). *)
Record Options := mkOptions {
  options_Task             : bool;
  options_TaskGraph        : bool;
  options_publisher        : bool;
  options_queue            : bool;
  options_queueEvents      : bool;
  options_connectionString : option string;
  options_schedulerId      : option string;
  options_queueName        : option string
}.

(** A binding made by [queueEvents.taskCompleted] or [queueEvents.taskFailed]:
    its exchange and the routing it was asked for. *)
Record Binding := mkBinding {
  binding_exchange : string;
  binding_routing  : string
}.

(** A [taskcluster.Listener]: what it was created with, what was bound to it,
    whether the ['message'] callback is installed, and how far it got. *)
Record Listener := mkListener {
  listener_connectionString : string;
  listener_queueName        : option string;
  listener_bindings         : list Binding;
  listener_on_message       : bool;
  listener_connected        : bool;
  listener_resumed          : bool
}.

(** The fields of [this] that [setup] reads or writes; [None] is
    [this.listener === null]. *)
Record Object := mkObject {
  this_schedulerId      : string;
  this_connectionString : string;
  this_queueName        : option string;
  this_listener         : option Listener
}.

(** A call either returns or throws. *)
Inductive Outcome (A : Type) :=
| Returns (a : A)
| Throws (e : Error).
Arguments Returns {A} a.
Arguments Throws {A} e.

(** How the promise returned by [setup] settles. *)
Inductive Started := Listening | ConnectFailed | ResumeFailed.

(** Truthiness of a string that may be undefined: the empty string is
    falsy. *)
Definition truthy (s : option string) : bool :=
  match s with
  | Some s => negb (String.eqb s "")
  | None => false
  end.

Module Setup.

(** [var Handlers = function(options)]: the asserts in their order, then the
    fields are stored and [this.listener = null]. *)
Definition constructor (options : Options) : Outcome Object :=
  if negb (options_Task options) then
    Throws (AssertionError "A subclass of data.Task is required")
  else if negb (options_TaskGraph options) then
    Throws (AssertionError "A subclass of data.TaskGraph is required")
  else if negb (options_publisher options) then
    Throws (AssertionError "An instance of base.Exchanges.Publisher is required")
  else if negb (options_queue options) then
    Throws (AssertionError "An instance of taskcluster.Queue is required")
  else if negb (options_queueEvents options) then
    Throws (AssertionError "An instance of taskcluster.QueueEvents is required")
  else if negb (truthy (options_connectionString options)) then
    Throws (AssertionError "Connection string must be provided")
  else if negb (truthy (options_schedulerId options)) then
    Throws (AssertionError "SchedulerId is required")
  else
    Returns (mkObject (default "" (options_schedulerId options))
                      (default "" (options_connectionString options))
                      (options_queueName options)
                      None).

(** [listener.bind(binding)] *)
Definition bind (b : Binding) (l : Listener) : Listener :=
  mkListener (listener_connectionString l) (listener_queueName l)
             (listener_bindings l ++ [b]) (listener_on_message l)
             (listener_connected l) (listener_resumed l).

(** [listener.on('message', ...)] *)
Definition on (l : Listener) : Listener :=
  mkListener (listener_connectionString l) (listener_queueName l)
             (listener_bindings l) true
             (listener_connected l) (listener_resumed l).

(** [listener.connect()] and [listener.resume()], when they succeed. *)
Definition connect (l : Listener) : Listener :=
  mkListener (listener_connectionString l) (listener_queueName l)
             (listener_bindings l) (listener_on_message l) true (listener_resumed l).

Definition resume (l : Listener) : Listener :=
  mkListener (listener_connectionString l) (listener_queueName l)
             (listener_bindings l) (listener_on_message l) (listener_connected l) true.

(** [Handlers.prototype.setup]; [connects] and [resumes] say whether the
    listener's [connect()] and [resume()] succeed.  The listener is stored in
    [this.listener] before it connects. *)
Definition setup (that : Env) (connects resumes : bool) (this : Object)
    : Object * Outcome Started :=
  match this_listener this with
  | Some _ => (this, Throws (AssertionError "Cannot setup twice!"))
  | None =>
      let listener :=
        mkListener (this_connectionString this) (this_queueName this) [] false false false in
      let completedBinding :=
        mkBinding (completedExchange that) (String.append (this_schedulerId this) ".#") in
      let listener := bind completedBinding listener in
      let failedBinding :=
        mkBinding (failedExchange that) (String.append (this_schedulerId this) ".#") in
      let listener := bind failedBinding listener in
      let listener := on listener in
      let store l :=
        mkObject (this_schedulerId this) (this_connectionString this)
                 (this_queueName this) (Some l) in
      if connects then
        if resumes then (store (resume (connect listener)), Returns Listening)
        else (store (connect listener), Returns ResumeFailed)
      else (store listener, Returns ConnectFailed)
  end.

End Setup.

Module SampleSetup.
Definition options : Options :=
  mkOptions true true true true true (Some "amqp://broker") (Some "sched") None.
(** The same with an empty schedulerId. *)
Definition options_empty_id : Options :=
  mkOptions true true true true true (Some "amqp://broker") (Some "") None.
End SampleSetup.

(** ** Commits *)

(** What one message can do to a world when no other writer interferes, one
    commit at a time: a task row gets a resolution or loses a rerun, the
    queue receives a call, a chain is detached or the list of detached
    chains is emptied, a rejection stays unhandled, the modifier of the
    finish check or of the block transition is committed on a loaded graph
    row and its event follows when the modifier's flag is set and the broker
    accepts it. *)
Inductive commit : World -> World -> Prop :=
| commit_resolution w key t r :
    tasks w !! key = Some t ->
    commit w (set_tasks (<[key := set_resolution r t]> (tasks w)) w)
| commit_rerun w key t :
    tasks w !! key = Some t -> 0 < rerunsLeft t ->
    commit w
      (set_tasks (<[key := set_rerunsLeft (js_minus_one (rerunsLeft t)) t]> (tasks w)) w)
| commit_queueCall w c : commit w (add_queueCall c w)
| commit_detach w j : commit w (add_detached j w)
| commit_drain w : commit w (set_detached [] w)
| commit_unhandled w e : commit w (add_unhandled e w)
| commit_finish w gid tid g (accepted : bool) :
    taskGraphs w !! gid = Some g -> graphId g = gid ->
    commit w
      (let m := Handlers.finish_modifier tid false g in
       let w1 := set_taskGraphs (<[gid := m.2]> (taskGraphs w)) w in
       if m.1 && accepted
       then add_published (taskGraphFinished (status m.2) (routing m.2)) w1
       else w1)
| commit_block w gid btid g (accepted : bool) :
    taskGraphs w !! gid = Some g -> graphId g = gid ->
    commit w
      (let m := Handlers.block_modifier false g in
       let w1 := set_taskGraphs (<[gid := m.2]> (taskGraphs w)) w in
       if m.1 && accepted
       then add_published (taskGraphBlocked (status m.2) btid (routing m.2)) w1
       else w1).

(** Handling a list of messages, one after the other. *)
Definition handle_all (that : Env) (messages : list Message) (w : World) : World :=
  foldl (λ w' m, handle that m w') w messages.

(** Does the string hold the character? *)
Fixpoint has_char (c : ascii) (s : string) : bool :=
  match s with
  | EmptyString => false
  | String c' rest => Ascii.eqb c' c || has_char c rest
  end.

(** The terminal events published for graph [gid]. *)
Definition finished_for (gid : string) (e : Event) : bool :=
  match e with
  | taskGraphFinished st _ => String.eqb (status_taskGraphId st) gid
  | taskGraphBlocked _ _ _ => false
  end.

Definition blocked_for (gid : string) (e : Event) : bool :=
  match e with
  | taskGraphBlocked st _ _ => String.eqb (status_taskGraphId st) gid
  | taskGraphFinished _ _ => false
  end.

Definition count_events (p : Event -> bool) (evs : list Event) : nat :=
  length (List.filter p evs).

(** Every event published for graph [gid] is accounted for by the graph's
    row: a blocked event only once, and then the graph is not running; a
    finished event only once, and then nothing is left to require. *)
Definition accounted (w : World) (gid : string) : Prop :=
  (count_events (blocked_for gid) (published w) = 0%nat
   ∨ (count_events (blocked_for gid) (published w) = 1%nat ∧ block_settled w gid))
  ∧ (count_events (finished_for gid) (published w) = 0%nat
     ∨ (count_events (finished_for gid) (published w) = 1%nat
        ∧ ∀ g, taskGraphs w !! gid = Some g -> graphId g = gid -> requiresLeft g = [])).

(** ** Invariants of the tables *)

(** The graph table keeps its rows: none appears, none disappears, and a row
    keeps its identifier and routing while [requiresLeft] loses entries
    only. *)
Definition graphs_kept (m m' : gmap string TaskGraph) : Prop :=
  ∀ gid,
    match m !! gid with
    | None => m' !! gid = None
    | Some g =>
        ∃ g', m' !! gid = Some g' ∧ graphId g' = graphId g ∧ routing g' = routing g
              ∧ requiresLeft g' `sublist_of` requiresLeft g
    end.

(** The task table keeps its rows: none appears, none disappears, and a row
    keeps its identifiers and edges while [rerunsLeft] does not grow and does
    not become negative. *)
Definition tasks_kept (m m' : gmap (string * string) Task) : Prop :=
  ∀ key,
    match m !! key with
    | None => m' !! key = None
    | Some t =>
        ∃ t', m' !! key = Some t' ∧ taskGraphId t' = taskGraphId t ∧ taskId t' = taskId t
              ∧ dependents t' = dependents t ∧ requires t' = requires t
              ∧ rerunsLeft t' ≤ rerunsLeft t ∧ (0 ≤ rerunsLeft t -> 0 ≤ rerunsLeft t')
    end.

(** A finished graph requires nothing more. *)
Definition finished_means_done (w : World) : Prop :=
  ∀ gid g, taskGraphs w !! gid = Some g -> state g = finished -> requiresLeft g = [].

(** The same collaborators when no writer interferes with the graph rows. *)
Definition without_graph_conflicts (that : Env) : Env :=
  mkEnv (completedExchange that) (failedExchange that) (rerun_accepted that)
        (schedule_accepted that) (publish_accepted that) (Task_conflicts that) [].

(** ** Basic facts *)

Lemma js_minus_one_exact (x : Z) :
  - 2 ^ 53 < x -> x ≤ 2 ^ 53 -> js_minus_one x = x - 1.
Proof.
  intros Hlo Hhi. unfold js_minus_one.
  destruct (Z.ltb_spec (- 2 ^ 53) x); [|lia].
  destruct (Z.leb_spec x (2 ^ 53)); [done|lia].
Qed.

Lemma js_minus_one_bounds (x : Z) :
  js_minus_one x ≤ x ∧ (0 < x -> 0 ≤ js_minus_one x).
Proof.
  unfold js_minus_one.
  destruct (Z.ltb_spec (- 2 ^ 53) x), (Z.leb_spec x (2 ^ 53)); simpl; try lia;
    destruct (Z.ltb_spec (- 2 ^ 54) x), (Z.ltb_spec x (2 ^ 54)); simpl; try lia;
    destruct (x mod 4 =? 0); lia.
Qed.

Lemma is_double_even (x : Z) : is_double x -> 2 ^ 53 ≤ Z.abs x -> x mod 2 = 0.
Proof.
  intros (m & e & Hm & He & ->) Hx.
  destruct (decide (e = 0)) as [-> | Hne]; [rewrite Z.mul_1_r in Hx; lia|].
  replace e with (Z.succ (e - 1)) by lia. rewrite Z.pow_succ_r by lia.
  replace (m * (2 * 2 ^ (e - 1))) with (m * 2 ^ (e - 1) * 2) by lia.
  apply Z.mod_mul. done.
Qed.

Lemma is_double_four (x : Z) : is_double x -> 2 ^ 54 ≤ Z.abs x -> x mod 4 = 0.
Proof.
  intros (m & e & Hm & He & ->) Hx.
  destruct (decide (e = 0)) as [-> | Hne0]; [rewrite Z.mul_1_r in Hx; lia|].
  destruct (decide (e = 1)) as [-> | Hne1]; [change (2 ^ 1) with 2 in Hx; lia|].
  replace e with (2 + (e - 2)) by lia. rewrite Z.pow_add_r by lia.
  replace (m * (2 ^ 2 * 2 ^ (e - 2))) with (m * 2 ^ (e - 2) * 4) by lia.
  apply Z.mod_mul. done.
Qed.

Lemma is_double_small (x : Z) : Z.abs x ≤ 2 ^ 53 -> is_double x.
Proof.
  intros Hx. destruct (decide (Z.abs x = 2 ^ 53)) as [He|Hne].
  - exists (x / 2), 1. change (2 ^ 1) with 2.
    assert (x = 2 ^ 53 ∨ x = - 2 ^ 53) as [-> | ->] by lia; by vm_compute.
  - exists x, 0. rewrite Z.mul_1_r. lia.
Qed.

Lemma is_double_quarter (x : Z) : x mod 4 = 0 -> Z.abs x ≤ 2 ^ 54 -> is_double x.
Proof.
  intros H4 Hx. destruct (decide (Z.abs x = 2 ^ 54)) as [He|Hne].
  - exists (x / 8), 3.
    assert (x = 2 ^ 54 ∨ x = - 2 ^ 54) as [-> | ->] by lia; by vm_compute.
  - exists (x / 4), 2. change (2 ^ 2) with 4.
    pose proof (Z.div_mod x 4 ltac:(done)) as Hd. rewrite H4 in Hd. lia.
Qed.

Lemma even_not_four (x : Z) : x mod 2 = 0 -> x mod 4 ≠ 0 -> (x - 2) mod 4 = 0.
Proof.
  intros He H4.
  pose proof (Z.div_mod x 2 ltac:(done)). pose proof (Z.div_mod x 4 ltac:(done)).
  pose proof (Z.div_mod (x - 2) 4 ltac:(done)).
  pose proof (Z.mod_pos_bound x 4 ltac:(done)).
  pose proof (Z.mod_pos_bound (x - 2) 4 ltac:(done)).
  assert (x mod 4 = 2) by lia. lia.
Qed.

Lemma is_double_not_odd (z : Z) : is_double (z - 1) -> z mod 2 = 0 -> Z.abs (z - 1) < 2 ^ 53.
Proof.
  intros Hd He. destruct (Z.lt_ge_cases (Z.abs (z - 1)) (2 ^ 53)) as [|Hge]; [done|].
  pose proof (is_double_even _ Hd Hge) as He'.
  pose proof (Z.div_mod z 2 ltac:(done)). pose proof (Z.div_mod (z - 1) 2 ltac:(done)).
  lia.
Qed.

(** The stored number is a double again, and no double is nearer to the
    exact difference. *)
Lemma js_minus_one_nearest (x : Z) :
  is_double x ->
  is_double (js_minus_one x)
  ∧ ∀ d, is_double d -> Z.abs (js_minus_one x - (x - 1)) ≤ Z.abs (d - (x - 1)).
Proof.
  intros Hx.
  destruct (decide (- 2 ^ 53 < x ≤ 2 ^ 53)) as [Hin|Hout].
  { rewrite js_minus_one_exact by lia.
    split; [apply is_double_small; lia|]. intros d _. lia. }
  pose proof (is_double_even x Hx ltac:(lia)) as He.
  assert (∀ d, is_double d -> d ≠ x - 1) as Hodd.
  { intros d Hd ->. pose proof (is_double_not_odd x Hd He). lia. }
  assert (∀ r, is_double r -> (r = x ∨ r = x - 2) ->
               is_double r ∧ ∀ d, is_double d -> Z.abs (r - (x - 1)) ≤ Z.abs (d - (x - 1)))
    as Hnear.
  { intros r Hr Hc. split; [done|]. intros d Hd. pose proof (Hodd d Hd). lia. }
  unfold js_minus_one.
  destruct (Z.ltb_spec (- 2 ^ 53) x) as [Hlo|Hlo], (Z.leb_spec x (2 ^ 53)) as [Hhi|Hhi];
    simpl; try lia.
  - destruct (Z.ltb_spec (- 2 ^ 54) x), (Z.ltb_spec x (2 ^ 54)); simpl;
      try (apply Hnear; by auto).
    destruct (Z.eqb_spec (x mod 4) 0) as [H4|H4]; [apply Hnear; by auto|].
    apply Hnear; [|by auto]. apply is_double_quarter; [|lia].
    by apply even_not_four.
  - destruct (Z.ltb_spec (- 2 ^ 54) x), (Z.ltb_spec x (2 ^ 54)); simpl;
      try (apply Hnear; by auto).
    destruct (Z.eqb_spec (x mod 4) 0) as [H4|H4]; [apply Hnear; by auto|].
    apply Hnear; [|by auto]. apply is_double_quarter; [by apply even_not_four|].
    pose proof (Z.div_mod x 2 ltac:(done)). lia.
Qed.

(** Where two doubles are equally near, the stored one is the multiple of 4:
    both lie between 2^53 and 2^54 in size, where a double is twice its
    significand, so this is the one whose significand is even. *)
Lemma js_minus_one_tie (x : Z) :
  is_double x -> is_double (x - 2) -> 2 ^ 53 < Z.abs (x - 1) ->
  js_minus_one x mod 4 = 0.
Proof.
  intros Hx Hx2 Hbig.
  pose proof (is_double_even x Hx ltac:(lia)) as He.
  assert (- 2 ^ 54 < x ≤ 2 ^ 54) as Hr.
  { destruct (decide (- 2 ^ 54 < x ≤ 2 ^ 54)) as [|Hn]; [done|].
    pose proof (is_double_four x Hx ltac:(lia)) as H4.
    pose proof (Z.div_mod x 4 ltac:(done)).
    pose proof (is_double_four _ Hx2 ltac:(lia)) as H4'.
    pose proof (Z.div_mod (x - 2) 4 ltac:(done)). lia. }
  unfold js_minus_one.
  destruct (Z.ltb_spec (- 2 ^ 53) x) as [Hlo|Hlo], (Z.leb_spec x (2 ^ 53)) as [Hhi|Hhi];
    simpl; try lia.
  - destruct (Z.ltb_spec (- 2 ^ 54) x), (Z.ltb_spec x (2 ^ 54)); simpl; try lia.
    + destruct (Z.eqb_spec (x mod 4) 0) as [H4|H4]; [done|].
      by apply even_not_four.
    + assert (x = 2 ^ 54) as -> by lia. by vm_compute.
  - destruct (Z.ltb_spec (- 2 ^ 54) x), (Z.ltb_spec x (2 ^ 54)); simpl; try lia.
    destruct (Z.eqb_spec (x mod 4) 0) as [H4|H4]; [done|].
    by apply even_not_four.
Qed.

Section replay_facts.
Context {V E : Type} (modifier : V -> E -> V * E).
Hypothesis Hre : reinitialises modifier.

Lemma replay_commit_base (v : V) (this : E) (conflicts : list E) :
  replay modifier v this conflicts = modifier v (commit_base this conflicts).
Proof.
  revert v this. induction conflicts as [|c cs IH]; intros v this; simpl.
  - reflexivity.
  - rewrite IH. apply Hre.
Qed.
End replay_facts.

Lemma finish_modifier_reinit tid : reinitialises (Handlers.finish_modifier tid).
Proof. intros v v' this. reflexivity. Qed.

Lemma block_modifier_reinit : reinitialises Handlers.block_modifier.
Proof. intros v v' this. reflexivity. Qed.

Lemma rerun_modifier_reinit message : reinitialises (Handlers.rerun_modifier message).
Proof. intros v v' this. reflexivity. Qed.

Lemma failed_modifier_reinit : reinitialises Handlers.failed_modifier.
Proof. intros v v' this. reflexivity. Qed.

Lemma success_modifier_reinit message : reinitialises (Handlers.success_modifier message).
Proof. intros v v' this. reflexivity. Qed.

Lemma then_run {A B} (f : A -> Promise B) (p : Promise A) (w : World) :
  (p ≫= f) w =
  match p w with
  | (w', Resolved a) => f a w'
  | (w', Rejected e) => (w', Rejected e)
  end.
Proof. reflexivity. Qed.

Lemma Task_load_Some (w : World) (gid tid : string) (t : Task) :
  tasks w !! (gid, tid) = Some t -> taskGraphId t = gid -> taskId t = tid ->
  Task_load gid tid w = (w, Resolved t).
Proof.
  intros Hl Hg Ht. unfold Task_load. rewrite Hl.
  rewrite bool_decide_eq_true_2; [reflexivity | by split].
Qed.

Lemma Task_load_cases (w : World) (gid tid : string) :
  Task_load gid tid w = (w, Rejected NotFound) ∨
  ∃ t, Task_load gid tid w = (w, Resolved t) ∧
       tasks w !! (gid, tid) = Some t ∧ taskGraphId t = gid ∧ taskId t = tid.
Proof.
  unfold Task_load. destruct (tasks w !! (gid, tid)) as [t|]; [|by left].
  case_bool_decide as Hk; [|by left]. destruct Hk as [Hk1 Hk2]. right. by exists t.
Qed.

Lemma TaskGraph_load_Some (w : World) (gid : string) (g : TaskGraph) :
  taskGraphs w !! gid = Some g -> graphId g = gid ->
  TaskGraph_load gid w = (w, Resolved g).
Proof.
  intros Hl Hg. unfold TaskGraph_load. rewrite Hl.
  by rewrite bool_decide_eq_true_2.
Qed.

Lemma TaskGraph_load_cases (w : World) (gid : string) :
  TaskGraph_load gid w = (w, Rejected NotFound) ∨
  ∃ g, TaskGraph_load gid w = (w, Resolved g) ∧
       taskGraphs w !! gid = Some g ∧ graphId g = gid.
Proof.
  unfold TaskGraph_load. destruct (taskGraphs w !! gid) as [g|]; [|by left].
  case_bool_decide as Hk; [|by left]. right. by exists g.
Qed.

Lemma finish_modifier_flag tid v g :
  (Handlers.finish_modifier tid v g).1 = true ->
  state (Handlers.finish_modifier tid v g).2 = finished.
Proof.
  unfold Handlers.finish_modifier.
  destruct (contains (requiresLeft g) tid); simpl; [|discriminate].
  destruct (length (without (requiresLeft g) tid) =? 0)%nat; simpl; [done|discriminate].
Qed.

Lemma block_modifier_flag v g :
  (Handlers.block_modifier v g).1 = true ->
  state (Handlers.block_modifier v g).2 = blocked.
Proof.
  unfold Handlers.block_modifier.
  case_bool_decide; simpl; [done|discriminate].
Qed.

Lemma checkTaskGraphFinished_run that w gid tid g0 :
  taskGraphs w !! gid = Some g0 -> graphId g0 = gid ->
  Handlers.checkTaskGraphFinished that gid tid w =
  let r := Handlers.finish_modifier tid false (commit_base g0 (TaskGraph_conflicts that)) in
  let w1 := set_taskGraphs (<[gid := r.2]> (taskGraphs w)) w in
  if r.1 then publish that (taskGraphFinished (status r.2) (routing r.2)) w1
  else (w1, Resolved tt).
Proof.
  intros Hl Hg. unfold Handlers.checkTaskGraphFinished.
  rewrite then_run, (TaskGraph_load_Some _ _ _ Hl Hg), then_run.
  unfold TaskGraph_modify.
  rewrite (replay_commit_base _ (finish_modifier_reinit tid)), Hg.
  cbv zeta.
  pose proof (finish_modifier_flag tid false (commit_base g0 (TaskGraph_conflicts that))) as Hf.
  destruct (Handlers.finish_modifier tid false (commit_base g0 (TaskGraph_conflicts that))) as [[] g']; simpl in *.
  - rewrite then_run. rewrite Hf by done. reflexivity.
  - reflexivity.
Qed.

Lemma checkTaskGraphFinished_NotFound that w gid tid :
  TaskGraph_load gid w = (w, Rejected NotFound) ->
  Handlers.checkTaskGraphFinished that gid tid w = (w, Rejected NotFound).
Proof.
  intros Hl. unfold Handlers.checkTaskGraphFinished. by rewrite then_run, Hl.
Qed.

Lemma blockTaskGraph_chain_run that w gid btid g0 :
  taskGraphs w !! gid = Some g0 -> graphId g0 = gid ->
  Handlers.blockTaskGraph_chain that gid btid w =
  let r := Handlers.block_modifier false (commit_base g0 (TaskGraph_conflicts that)) in
  let w1 := set_taskGraphs (<[gid := r.2]> (taskGraphs w)) w in
  if r.1 then publish that (taskGraphBlocked (status r.2) btid (routing r.2)) w1
  else (w1, Resolved tt).
Proof.
  intros Hl Hg. unfold Handlers.blockTaskGraph_chain.
  rewrite then_run, (TaskGraph_load_Some _ _ _ Hl Hg), then_run.
  unfold TaskGraph_modify.
  rewrite (replay_commit_base _ block_modifier_reinit), Hg.
  cbv zeta.
  pose proof (block_modifier_flag false (commit_base g0 (TaskGraph_conflicts that))) as Hf.
  destruct (Handlers.block_modifier false (commit_base g0 (TaskGraph_conflicts that)))
    as [[] g']; simpl in *.
  - rewrite then_run. rewrite Hf by done. reflexivity.
  - reflexivity.
Qed.

Lemma blockTaskGraph_chain_NotFound that w gid btid :
  TaskGraph_load gid w = (w, Rejected NotFound) ->
  Handlers.blockTaskGraph_chain that gid btid w = (w, Rejected NotFound).
Proof.
  intros Hl. unfold Handlers.blockTaskGraph_chain. by rewrite then_run, Hl.
Qed.

Lemma TaskGraph_modify_inv {V} that taskGraph (modifier : V -> TaskGraph -> V * TaskGraph)
    v w w' x g' :
  reinitialises modifier ->
  TaskGraph_modify that taskGraph modifier v w = (w', Resolved (x, g')) ->
  modifier v (commit_base taskGraph (TaskGraph_conflicts that)) = (x, g')
  ∧ w' = set_taskGraphs (<[graphId taskGraph := g']> (taskGraphs w)) w.
Proof.
  intros Hre Hm. unfold TaskGraph_modify in Hm.
  rewrite (replay_commit_base _ Hre) in Hm.
  destruct (modifier v _) as [x' g'']. simpl in Hm. by simplify_eq.
Qed.

Lemma without_not_elem (l : list string) (x : string) : x ∉ without l x.
Proof. unfold without. rewrite list_elem_of_filter. by intros [Hne _]. Qed.

Lemma without_elem (l : list string) (x y : string) :
  y ∈ without l x ↔ y ∈ l ∧ y ≠ x.
Proof. unfold without. rewrite list_elem_of_filter. tauto. Qed.

Lemma without_sublist (l : list string) (x : string) : without l x `sublist_of` l.
Proof. unfold without. apply sublist_filter. Qed.

Lemma without_longest (l : list string) (x : string) (k : list string) :
  k `sublist_of` l -> x ∉ k -> k `sublist_of` without l x.
Proof.
  intros Hk Hx. unfold without.
  induction Hk as [|y k l Hk IH|y k l Hk IH].
  - constructor.
  - rewrite filter_cons. rewrite not_elem_of_cons in Hx. destruct Hx as [Hne Hx].
    destruct (decide (y ≠ x)) as [_|Hn]; [|by destruct Hn]. constructor. by apply IH.
  - rewrite filter_cons. destruct (decide (y ≠ x)).
    + constructor. by apply IH.
    + by apply IH.
Qed.

Lemma contains_true (l : list string) (x : string) : contains l x = true <-> x ∈ l.
Proof. unfold contains. apply bool_decide_eq_true. Qed.

Lemma contains_false (l : list string) (x : string) : contains l x = false <-> x ∉ l.
Proof. unfold contains. apply bool_decide_eq_false. Qed.

Lemma set_detached_nil_id (w : World) : detached w = [] -> set_detached [] w = w.
Proof. intros H. destruct w; simpl in *. by subst. Qed.

Lemma run_detached_nil that w : detached w = [] -> run_detached that w = w.
Proof.
  intros H. unfold run_detached. rewrite H. simpl. by apply set_detached_nil_id.
Qed.

Lemma run_detached_one that w j :
  detached w = [j] -> run_detached that w = run_one that (set_detached [] w) j.
Proof. intros H. unfold run_detached. by rewrite H. Qed.

(** What a detached block chain leaves, for a graph that can be loaded. *)
Lemma run_one_block that w gid btid g0 :
  taskGraphs w !! gid = Some g0 -> graphId g0 = gid ->
  let g := commit_base g0 (TaskGraph_conflicts that) in
  let w' := run_one that w (BlockJob gid btid) in
  tasks w' = tasks w ∧ queueCalls w' = queueCalls w ∧ detached w' = detached w ∧
  if bool_decide (state g = running) then
    let ev := taskGraphBlocked (status (set_state blocked g)) btid (routing g) in
    taskGraphs w' = <[gid := set_state blocked g]> (taskGraphs w) ∧
    published w' = published w ++ (if publish_accepted that ev then [ev] else []) ∧
    unhandled w' = unhandled w ++ (if publish_accepted that ev then [] else [PublishError])
  else
    taskGraphs w' = <[gid := g]> (taskGraphs w) ∧ published w' = published w ∧
    unhandled w' = unhandled w.
Proof.
  intros Hl Hg g w'. subst w'. unfold run_one, run_job.
  rewrite (blockTaskGraph_chain_run _ _ _ _ _ Hl Hg). fold g. cbv zeta.
  unfold Handlers.block_modifier.
  case_bool_decide as Hs; simpl.
  - unfold publish. destruct (publish_accepted that _); simpl;
      rewrite ?app_nil_r; by repeat split.
  - by repeat split.
Qed.

Lemma Task_modify_run {V} that task (modifier : V -> Task -> V * Task) v w :
  reinitialises modifier ->
  Task_modify that task modifier v w =
  let r := modifier v (commit_base task (Task_conflicts that)) in
  (set_tasks (<[(taskGraphId task, taskId task) := r.2]> (tasks w)) w, Resolved r).
Proof.
  intros Hre. unfold Task_modify. by rewrite (replay_commit_base _ Hre).
Qed.

Lemma scheduleDependents_frame that gid ds w :
  let r := Handlers.scheduleDependents that gid ds w in
  tasks r.1 = tasks w ∧ taskGraphs r.1 = taskGraphs w ∧
  published r.1 = published w ∧ detached r.1 = detached w.
Proof.
  revert w. induction ds as [|d ds IH]; intros w; simpl; [done|].
  rewrite then_run.
  destruct (Task_load_cases w gid d) as [-> | (dt & -> & _)]; [done|].
  rewrite then_run, then_run.
  destruct (forallb _ _).
  - unfold queue_scheduleTask.
    destruct (schedule_accepted that d); [|done].
    apply (IH (add_queueCall (scheduleTask d) w)).
  - apply IH.
Qed.

Lemma failed_run that w message gid t0 :
  routing_taskGraphId message = Some gid ->
  tasks w !! (gid, payload_status_taskId message) = Some t0 ->
  taskGraphId t0 = gid -> taskId t0 = payload_status_taskId message ->
  Handlers.failed that message w =
  (add_detached (BlockJob gid (payload_status_taskId message))
     (set_tasks
        (<[(gid, payload_status_taskId message) :=
             set_resolution (mkResolution false false None None)
               (commit_base t0 (Task_conflicts that))]> (tasks w)) w),
   Resolved tt).
Proof.
  intros Hr Ht Hk1 Hk2. unfold Handlers.failed. rewrite Hr. cbv zeta.
  rewrite then_run, (Task_load_Some _ _ _ _ Ht Hk1 Hk2), then_run.
  rewrite (Task_modify_run _ _ _ _ _ failed_modifier_reinit). cbv zeta.
  by rewrite Hk1, Hk2.
Qed.

Lemma failed_NotFound that w message :
  (∀ gid, routing_taskGraphId message = Some gid ->
          Task_load gid (payload_status_taskId message) w = (w, Rejected NotFound)) ->
  Handlers.failed that message w = (w, Rejected NotFound).
Proof.
  intros H. unfold Handlers.failed.
  destruct (routing_taskGraphId message) as [gid|]; [|done].
  cbv zeta. by rewrite then_run, (H gid eq_refl).
Qed.

Lemma completed_run that w message gid t0 :
  routing_taskGraphId message = Some gid ->
  tasks w !! (gid, payload_status_taskId message) = Some t0 ->
  taskGraphId t0 = gid -> taskId t0 = payload_status_taskId message ->
  let tid := payload_status_taskId message in
  let t := commit_base t0 (Task_conflicts that) in
  Handlers.completed that message w =
  if payload_success message then
    let t' := set_resolution
                (mkResolution true true (payload_resultUrl message) (payload_logsUrl message)) t in
    let w1 := set_tasks (<[(gid, tid) := t']> (tasks w)) w in
    if negb (length (dependents t) =? 0)%nat
    then Handlers.scheduleDependentTasks that t' w1
    else Handlers.checkTaskGraphFinished that gid (taskId t) w1
  else if bool_decide (0 < rerunsLeft t) then
    queue_rerunTask that (taskId t)
      (set_tasks (<[(gid, tid) := set_rerunsLeft (js_minus_one (rerunsLeft t)) t]>
                    (tasks w)) w)
  else
    (add_detached (BlockJob (taskGraphId t) (taskId t))
       (set_tasks
          (<[(gid, tid) :=
               set_resolution
                 (mkResolution true false (payload_resultUrl message) (payload_logsUrl message))
                 t]> (tasks w)) w),
     Resolved tt).
Proof.
  intros Hr Ht Hk1 Hk2 tid t. subst tid. unfold Handlers.completed. rewrite Hr. cbv zeta.
  rewrite then_run, (Task_load_Some _ _ _ _ Ht Hk1 Hk2).
  destruct (payload_success message).
  - rewrite then_run, (Task_modify_run _ _ _ _ _ (success_modifier_reinit message)).
    cbv zeta. rewrite Hk1, Hk2. fold t. unfold Handlers.success_modifier. simpl.
    by destruct (negb _).
  - unfold Handlers.rerunTaskOrBlock.
    rewrite then_run, (Task_modify_run _ _ _ _ _ (rerun_modifier_reinit message)).
    cbv zeta. rewrite Hk1, Hk2. fold t. unfold Handlers.rerun_modifier.
    case_bool_decide as Hpos.
    + assert ((rerunsLeft t >? 0) = true) as -> by lia. reflexivity.
    + assert ((rerunsLeft t >? 0) = false) as -> by lia. reflexivity.
Qed.

Lemma completed_NotFound that w message :
  (∀ gid, routing_taskGraphId message = Some gid ->
          Task_load gid (payload_status_taskId message) w = (w, Rejected NotFound)) ->
  Handlers.completed that message w = (w, Rejected NotFound).
Proof.
  intros H. unfold Handlers.completed.
  destruct (routing_taskGraphId message) as [gid|]; [|done].
  cbv zeta. by rewrite then_run, (H gid eq_refl).
Qed.

(** What the finish check leaves, whatever the graph table holds. *)
Lemma checkTaskGraphFinished_frame that gid tid w :
  let r := Handlers.checkTaskGraphFinished that gid tid w in
  tasks r.1 = tasks w ∧ detached r.1 = detached w ∧
  (∃ evs, published r.1 = published w ++ evs ∧
          Forall (λ e, is_blocked_event e = false) evs) ∧
  (taskGraphs r.1 = taskGraphs w ∨
   ∃ g0, taskGraphs w !! gid = Some g0 ∧ graphId g0 = gid ∧
         taskGraphs r.1 =
         <[gid := (Handlers.finish_modifier tid false
                     (commit_base g0 (TaskGraph_conflicts that))).2]> (taskGraphs w)).
Proof.
  destruct (TaskGraph_load_cases w gid) as [Hn|(g0 & _ & Hl & Hg)]; cbv zeta.
  - rewrite (checkTaskGraphFinished_NotFound _ _ _ _ Hn). simpl.
    split; [done|]. split; [done|]. split; [|by left].
    exists []. by rewrite app_nil_r.
  - rewrite (checkTaskGraphFinished_run _ _ _ _ _ Hl Hg). cbv zeta.
    destruct (Handlers.finish_modifier _ _ _) as [[] g'] eqn:Hm; cbn [fst snd].
    + unfold publish. destruct (publish_accepted that _); cbn [fst snd].
      * split; [done|]. split; [done|]. split.
        { exists [taskGraphFinished (status g') (routing g')].
          split; [reflexivity|]. repeat constructor. }
        right. exists g0. by rewrite Hm.
      * split; [done|]. split; [done|]. split.
        { exists []. by rewrite app_nil_r. }
        right. exists g0. by rewrite Hm.
    + split; [done|]. split; [done|]. split.
      { exists []. by rewrite app_nil_r. }
      right. exists g0. by rewrite Hm.
Qed.

Lemma finish_modifier_state tid v g :
  state (Handlers.finish_modifier tid v g).2 = state g ∨
  state (Handlers.finish_modifier tid v g).2 = finished.
Proof.
  unfold Handlers.finish_modifier.
  destruct (contains _ _); simpl; [|by left].
  destruct (_ =? _)%nat; simpl; [by right|by left].
Qed.

Lemma commit_base_elem {E} (this : E) (conflicts : list E) :
  commit_base this conflicts = this ∨ commit_base this conflicts ∈ conflicts.
Proof.
  revert this. induction conflicts as [|c cs IH]; intros this; simpl; [by left|].
  right. destruct (IH c) as [-> | Hin]; [left|by right].
Qed.

Lemma graphs_advance_refl m : graphs_advance m m.
Proof. intros gid g0 H. by exists g0. Qed.

Lemma graphs_advance_trans m1 m2 m3 :
  graphs_advance m1 m2 -> graphs_advance m2 m3 -> graphs_advance m1 m3.
Proof.
  intros H12 H23 gid g0 H. destruct (H12 gid g0 H) as (g1 & H1 & Hr1).
  destruct (H23 gid g1 H1) as (g2 & H2 & Hr2). exists g2. split; [done|lia].
Qed.

Lemma graphs_advance_insert m gid g0 g' :
  m !! gid = Some g0 -> (rank (state g0) ≤ rank (state g'))%nat ->
  graphs_advance m (<[gid := g']> m).
Proof.
  intros Hl Hr gid' g1 H1. destruct (decide (gid = gid')) as [<- | Hne].
  - exists g'. rewrite lookup_insert_eq. split; [done|]. by simplify_eq.
  - exists g1. by rewrite lookup_insert_ne.
Qed.

Lemma block_modifier_rank v g :
  (rank (state g) ≤ rank (state (Handlers.block_modifier v g).2))%nat.
Proof.
  unfold Handlers.block_modifier. case_bool_decide as Hs; simpl; [|lia].
  rewrite Hs. simpl. lia.
Qed.

Lemma finish_modifier_rank tid v g :
  (rank (state g) ≤ rank (state (Handlers.finish_modifier tid v g).2))%nat.
Proof.
  destruct (finish_modifier_state tid v g) as [-> | ->]; [lia|].
  destruct (state g); simpl; lia.
Qed.

Lemma blockTaskGraph_chain_frame that gid btid w :
  let r := Handlers.blockTaskGraph_chain that gid btid w in
  tasks r.1 = tasks w ∧ detached r.1 = detached w ∧
  (taskGraphs r.1 = taskGraphs w ∨
   ∃ g0, taskGraphs w !! gid = Some g0 ∧ graphId g0 = gid ∧
         taskGraphs r.1 =
         <[gid := (Handlers.block_modifier false
                     (commit_base g0 (TaskGraph_conflicts that))).2]> (taskGraphs w)).
Proof.
  destruct (TaskGraph_load_cases w gid) as [Hn|(g0 & _ & Hl & Hg)]; cbv zeta.
  - rewrite (blockTaskGraph_chain_NotFound _ _ _ _ Hn). simpl. by auto.
  - rewrite (blockTaskGraph_chain_run _ _ _ _ _ Hl Hg). cbv zeta.
    destruct (Handlers.block_modifier _ _) as [[] g'] eqn:Hm; cbn [fst snd].
    + unfold publish. destruct (publish_accepted that _); cbn [fst snd];
        (split; [done|]; split; [done|]; right; exists g0; by rewrite Hm).
    + split; [done|]. split; [done|]. right. exists g0. by rewrite Hm.
Qed.

Lemma run_one_frame that w j :
  TaskGraph_conflicts that = [] ->
  tasks (run_one that w j) = tasks w ∧ detached (run_one that w j) = detached w ∧
  graphs_advance (taskGraphs w) (taskGraphs (run_one that w j)).
Proof.
  intros Hq. destruct j as [gid btid]. unfold run_one, run_job.
  pose proof (blockTaskGraph_chain_frame that gid btid w) as (Ht & Hd & Hg).
  cbv zeta in *.
  assert (graphs_advance (taskGraphs w)
            (taskGraphs (Handlers.blockTaskGraph_chain that gid btid w).1)) as Ha.
  { destruct Hg as [-> | (g0 & Hl & _ & ->)]; [apply graphs_advance_refl|].
    rewrite Hq. simpl. apply (graphs_advance_insert _ _ g0); [done|].
    apply block_modifier_rank. }
  destruct (Handlers.blockTaskGraph_chain that gid btid w) as [w' [[]|e]]; by simpl in *.
Qed.

Lemma run_jobs_frame that js w :
  TaskGraph_conflicts that = [] ->
  tasks (foldl (run_one that) w js) = tasks w ∧
  detached (foldl (run_one that) w js) = detached w ∧
  graphs_advance (taskGraphs w) (taskGraphs (foldl (run_one that) w js)).
Proof.
  intros Hq. revert w. induction js as [|j js IH]; intros w; simpl.
  - split; [done|]. split; [done|]. apply graphs_advance_refl.
  - destruct (IH (run_one that w j)) as (Ht & Hd & Hg).
    destruct (run_one_frame that w j Hq) as (Ht1 & Hd1 & Hg1).
    split; [by rewrite Ht|]. split; [by rewrite Hd|].
    by apply (graphs_advance_trans _ _ _ Hg1).
Qed.

Lemma run_detached_frame that w :
  TaskGraph_conflicts that = [] ->
  tasks (run_detached that w) = tasks w ∧ detached (run_detached that w) = [] ∧
  graphs_advance (taskGraphs w) (taskGraphs (run_detached that w)).
Proof.
  intros Hq. unfold run_detached.
  by destruct (run_jobs_frame that (detached w) (set_detached [] w) Hq) as (-> & -> & Hg).
Qed.

(** What the listener's callback does to the two tables, in every case. *)
Lemma on_message_frame that message w :
  let r := Handlers.on_message that message w in
  let tid := payload_status_taskId message in
  (tasks r.1 = tasks w ∨
   ∃ gid t0, routing_taskGraphId message = Some gid ∧
     tasks w !! (gid, tid) = Some t0 ∧ taskGraphId t0 = gid ∧ taskId t0 = tid ∧
     let t := commit_base t0 (Task_conflicts that) in
     ∃ t', tasks r.1 = <[(gid, tid) := t']> (tasks w) ∧
       (t' = set_rerunsLeft (js_minus_one (rerunsLeft t)) t ∨
        t' = set_resolution
               (mkResolution true true (payload_resultUrl message) (payload_logsUrl message)) t ∨
        t' = set_resolution (mkResolution false false None None) t ∨
        t' = set_resolution
               (mkResolution true false (payload_resultUrl message) (payload_logsUrl message)) t))
  ∧ (taskGraphs r.1 = taskGraphs w ∨
     ∃ gid tid' g0, taskGraphs w !! gid = Some g0 ∧ graphId g0 = gid ∧
       taskGraphs r.1 =
       <[gid := (Handlers.finish_modifier tid' false
                   (commit_base g0 (TaskGraph_conflicts that))).2]> (taskGraphs w)).
Proof.
  cbv zeta. unfold Handlers.on_message.
  destruct (String.eqb _ _); [|destruct (String.eqb _ _)]; [| |by auto].
  - (* completed *)
    destruct (routing_taskGraphId message) as [gid|] eqn:Hr;
      [|rewrite completed_NotFound by (by rewrite Hr); by auto].
    destruct (Task_load_cases w gid (payload_status_taskId message))
      as [Hn | (t0 & _ & Ht & Hk1 & Hk2)].
    { rewrite completed_NotFound; [by auto|]. intros gid' ?. by simplify_eq. }
    rewrite (completed_run _ _ _ _ _ Hr Ht Hk1 Hk2). cbv zeta.
    set (t := commit_base t0 (Task_conflicts that)).
    destruct (payload_success message).
    + set (t' := set_resolution _ t). set (w1 := set_tasks _ w).
      destruct (negb _).
      * pose proof (scheduleDependents_frame that (taskGraphId t') (dependents t') w1)
          as (H1 & H2 & _).
        unfold Handlers.scheduleDependentTasks. split; [|by left].
        right. exists gid, t0. repeat (split; [done|]). exists t'.
        split; [by rewrite H1|]. by auto.
      * pose proof (checkTaskGraphFinished_frame that gid (taskId t) w1)
          as (H1 & _ & _ & H2).
        split.
        { right. exists gid, t0. repeat (split; [done|]). exists t'.
          split; [by rewrite H1|]. by auto. }
        destruct H2 as [H2 | (g0 & Hl & Hg & H2)]; [by left|].
        right. by exists gid, (taskId t), g0.
    + case_bool_decide.
      * unfold queue_rerunTask. cbn [fst snd]. split; [|by left].
        right. exists gid, t0. repeat (split; [done|]). eexists. split; [done|]. by left.
      * cbn [fst snd]. split; [|by left].
        right. exists gid, t0. repeat (split; [done|]). eexists. split; [done|]. by auto.
  - (* failed *)
    destruct (routing_taskGraphId message) as [gid|] eqn:Hr;
      [|rewrite failed_NotFound by (by rewrite Hr); by auto].
    destruct (Task_load_cases w gid (payload_status_taskId message))
      as [Hn | (t0 & _ & Ht & Hk1 & Hk2)].
    { rewrite failed_NotFound; [by auto|]. intros gid' ?. by simplify_eq. }
    rewrite (failed_run _ _ _ _ _ Hr Ht Hk1 Hk2). cbn [fst snd]. split; [|by left].
    right. exists gid, t0. repeat (split; [done|]). eexists. split; [done|]. by auto.
Qed.

Lemma run_one_tasks that w j : tasks (run_one that w j) = tasks w.
Proof.
  destruct j as [gid btid]. unfold run_one, run_job.
  pose proof (blockTaskGraph_chain_frame that gid btid w) as (Ht & _).
  cbv zeta in Ht.
  by destruct (Handlers.blockTaskGraph_chain that gid btid w) as [w' [[]|e]].
Qed.

Lemma run_detached_tasks that w : tasks (run_detached that w) = tasks w.
Proof.
  unfold run_detached.
  change (tasks w) with (tasks (set_detached [] w)).
  generalize (set_detached [] w). generalize (detached w).
  intros js. induction js as [|j js IH]; intros w0; simpl; [done|].
  by rewrite IH, run_one_tasks.
Qed.

Lemma TaskGraph_load_NotFound_inv w gid g :
  TaskGraph_load gid w = (w, Rejected NotFound) ->
  taskGraphs w !! gid = Some g -> graphId g = gid -> False.
Proof. intros Hn Hl Hg. by rewrite (TaskGraph_load_Some _ _ _ Hl Hg) in Hn. Qed.

Lemma checkTaskGraphFinished_loaded that w gid tid g0 :
  taskGraphs w !! gid = Some g0 -> graphId g0 = gid ->
  let m := Handlers.finish_modifier tid false (commit_base g0 (TaskGraph_conflicts that)) in
  let ev := taskGraphFinished (status m.2) (routing m.2) in
  let r := Handlers.checkTaskGraphFinished that gid tid w in
  tasks r.1 = tasks w ∧ detached r.1 = detached w ∧
  taskGraphs r.1 = <[gid := m.2]> (taskGraphs w) ∧
  published r.1 = published w ++ (if m.1 && publish_accepted that ev then [ev] else []).
Proof.
  intros Hl Hg. cbv zeta. rewrite (checkTaskGraphFinished_run _ _ _ _ _ Hl Hg). cbv zeta.
  destruct (Handlers.finish_modifier _ _ _) as [[] g']; cbn [fst snd andb].
  - unfold publish. destruct (publish_accepted that _); simpl; by rewrite ?app_nil_r.
  - simpl. by rewrite app_nil_r.
Qed.

Lemma finish_modifier_settles tid v g :
  tid ∉ requiresLeft (Handlers.finish_modifier tid v g).2.
Proof.
  unfold Handlers.finish_modifier.
  destruct (contains (requiresLeft g) tid) eqn:Hc; simpl.
  - destruct (_ =? _)%nat; simpl; apply without_not_elem.
  - by apply contains_false.
Qed.

Lemma finish_modifier_settled tid v g :
  tid ∉ requiresLeft g -> Handlers.finish_modifier tid v g = (false, g).
Proof.
  intros Hni. unfold Handlers.finish_modifier.
  apply contains_false in Hni. by rewrite Hni.
Qed.

Lemma finish_settles that gid tid w :
  TaskGraph_conflicts that = [] ->
  finish_settled (Handlers.checkTaskGraphFinished that gid tid w).1 gid tid.
Proof.
  intros Hq g. destruct (TaskGraph_load_cases w gid) as [Hn|(g0 & _ & Hl & Hg)].
  - rewrite (checkTaskGraphFinished_NotFound _ _ _ _ Hn). simpl.
    intros Hl' Hg'. by destruct (TaskGraph_load_NotFound_inv _ _ _ Hn Hl' Hg').
  - pose proof (checkTaskGraphFinished_loaded that w gid tid g0 Hl Hg) as (_ & _ & -> & _).
    rewrite lookup_insert_eq. intros [= <-] _. apply finish_modifier_settles.
Qed.

Lemma finish_settled_noop that gid tid w :
  TaskGraph_conflicts that = [] -> finish_settled w gid tid ->
  let r := Handlers.checkTaskGraphFinished that gid tid w in
  tasks r.1 = tasks w ∧ detached r.1 = detached w ∧
  taskGraphs r.1 = taskGraphs w ∧ published r.1 = published w.
Proof.
  intros Hq Hs. destruct (TaskGraph_load_cases w gid) as [Hn|(g0 & _ & Hl & Hg)]; cbv zeta.
  - by rewrite (checkTaskGraphFinished_NotFound _ _ _ _ Hn).
  - pose proof (checkTaskGraphFinished_loaded that w gid tid g0 Hl Hg) as (-> & -> & -> & ->).
    rewrite Hq. simpl. rewrite (finish_modifier_settled _ _ _ (Hs g0 Hl Hg)). simpl.
    by rewrite (insert_id _ _ _ Hl), app_nil_r.
Qed.

Lemma block_settles that gid btid w :
  TaskGraph_conflicts that = [] ->
  block_settled (run_one that w (BlockJob gid btid)) gid.
Proof.
  intros Hq g. destruct (TaskGraph_load_cases w gid) as [Hn|(g0 & _ & Hl & Hg)].
  - unfold run_one, run_job. rewrite (blockTaskGraph_chain_NotFound _ _ _ _ Hn). simpl.
    intros Hl' Hg'. by destruct (TaskGraph_load_NotFound_inv _ _ _ Hn Hl' Hg').
  - pose proof (run_one_block that w gid btid g0 Hl Hg) as (_ & _ & _ & Hb).
    cbv zeta in Hb. rewrite Hq in Hb. simpl in Hb.
    case_bool_decide as Hrun; destruct Hb as (-> & _);
      rewrite lookup_insert_eq; by intros [= <-] _.
Qed.

Lemma block_settled_noop that gid btid w :
  TaskGraph_conflicts that = [] -> block_settled w gid ->
  let w' := run_one that w (BlockJob gid btid) in
  tasks w' = tasks w ∧ detached w' = detached w ∧
  taskGraphs w' = taskGraphs w ∧ published w' = published w.
Proof.
  intros Hq Hs. destruct (TaskGraph_load_cases w gid) as [Hn|(g0 & _ & Hl & Hg)]; cbv zeta.
  - unfold run_one, run_job. by rewrite (blockTaskGraph_chain_NotFound _ _ _ _ Hn).
  - pose proof (run_one_block that w gid btid g0 Hl Hg) as (-> & _ & -> & Hb).
    cbv zeta in Hb. rewrite Hq in Hb. simpl in Hb.
    rewrite bool_decide_eq_false_2 in Hb by (by apply Hs).
    destruct Hb as (-> & -> & _). by rewrite (insert_id _ _ _ Hl).
Qed.

Lemma run_block_job that M w gid tid :
  detached w = [] ->
  run_detached that (add_detached (BlockJob gid tid) (set_tasks M w))
  = run_one that (set_tasks M w) (BlockJob gid tid).
Proof.
  intros Hd. rewrite (run_detached_one _ _ (BlockJob gid tid)).
  - f_equal. destruct w; simpl in *. by subst.
  - simpl. by rewrite Hd.
Qed.

Lemma run_to_end_rejected that (h : Promise unit) w e :
  detached w = [] -> h w = (w, Rejected e) -> run_to_end that h w = w.
Proof. intros Hd Hh. unfold run_to_end. rewrite Hh. by apply run_detached_nil. Qed.

Lemma failed_twice that message w :
  Task_conflicts that = [] -> TaskGraph_conflicts that = [] -> detached w = [] ->
  let w1 := run_to_end that (Handlers.failed that message) w in
  let w2 := run_to_end that (Handlers.failed that message) w1 in
  tasks w2 = tasks w1 ∧ taskGraphs w2 = taskGraphs w1 ∧ published w2 = published w1.
Proof.
  intros Hqt Hqg Hd. cbv zeta.
  destruct (routing_taskGraphId message) as [gid|] eqn:Hr.
  2:{ assert (∀ w, Handlers.failed that message w = (w, Rejected NotFound)) as Hn.
      { intros w'. apply failed_NotFound. by rewrite Hr. }
      by rewrite !(run_to_end_rejected _ _ _ _ Hd (Hn _)). }
  destruct (Task_load_cases w gid (payload_status_taskId message))
    as [Hn | (t0 & _ & Ht & Hk1 & Hk2)].
  { assert (Handlers.failed that message w = (w, Rejected NotFound)) as Hf.
    { apply failed_NotFound. intros gid' ?. by simplify_eq. }
    by rewrite !(run_to_end_rejected _ _ _ _ Hd Hf). }
  set (tid := payload_status_taskId message) in *.
  set (t' := set_resolution (mkResolution false false None None) t0).
  assert (∀ w' t, detached w' = [] -> tasks w' !! (gid, tid) = Some t ->
            taskGraphId t = gid -> taskId t = tid ->
            run_to_end that (Handlers.failed that message) w'
            = run_one that
                (set_tasks (<[(gid, tid) :=
                     set_resolution (mkResolution false false None None) t]> (tasks w')) w')
                (BlockJob gid tid)) as Hrun.
  { intros w' t Hd' Ht' Hk1' Hk2'. unfold run_to_end.
    rewrite (failed_run _ _ _ _ _ Hr Ht' Hk1' Hk2'), Hqt. cbn [fst commit_base].
    by apply run_block_job. }
  rewrite (Hrun w t0 Hd Ht Hk1 Hk2). fold t'.
  set (w1 := run_one that _ _).
  assert (tasks w1 = <[(gid, tid) := t']> (tasks w)) as Ht1 by apply run_one_tasks.
  assert (detached w1 = []) as Hd1.
  { subst w1. by destruct (run_one_frame that (set_tasks (<[(gid, tid):=t']> (tasks w)) w)
                             (BlockJob gid tid) Hqg) as (_ & -> & _). }
  assert (block_settled w1 gid) as Hs1 by (by apply block_settles).
  assert (tasks w1 !! (gid, tid) = Some t') as Hl1
    by (rewrite Ht1; apply lookup_insert_eq).
  rewrite (Hrun w1 t' Hd1 Hl1 Hk1 Hk2).
  change (set_resolution _ t') with t'.
  pose proof (block_settled_noop that gid tid
                (set_tasks (<[(gid, tid):=t']> (tasks w1)) w1) Hqg Hs1)
    as (Ha & _ & Hb & Hc).
  cbv zeta in *. rewrite Ha, Hb, Hc. simpl.
  split; [|done]. rewrite Ht1. by rewrite insert_insert_eq.
Qed.

Lemma completed_twice that message w :
  Task_conflicts that = [] -> TaskGraph_conflicts that = [] -> detached w = [] ->
  ¬ (payload_success message = false ∧
     ∃ gid t, routing_taskGraphId message = Some gid ∧
       tasks w !! (gid, payload_status_taskId message) = Some t ∧ 0 < rerunsLeft t) ->
  let w1 := run_to_end that (Handlers.completed that message) w in
  let w2 := run_to_end that (Handlers.completed that message) w1 in
  tasks w2 = tasks w1 ∧ taskGraphs w2 = taskGraphs w1 ∧ published w2 = published w1.
Proof.
  intros Hqt Hqg Hd Hsafe. cbv zeta.
  destruct (routing_taskGraphId message) as [gid|] eqn:Hr.
  2:{ assert (∀ w, Handlers.completed that message w = (w, Rejected NotFound)) as Hn.
      { intros w'. apply completed_NotFound. by rewrite Hr. }
      by rewrite !(run_to_end_rejected _ _ _ _ Hd (Hn _)). }
  destruct (Task_load_cases w gid (payload_status_taskId message))
    as [Hn | (t0 & _ & Ht & Hk1 & Hk2)].
  { assert (Handlers.completed that message w = (w, Rejected NotFound)) as Hf.
    { apply completed_NotFound. intros gid' ?. by simplify_eq. }
    by rewrite !(run_to_end_rejected _ _ _ _ Hd Hf). }
  set (tid := payload_status_taskId message) in *.
  destruct (payload_success message) eqn:Hs.
  - (* success *)
    set (R := mkResolution true true (payload_resultUrl message) (payload_logsUrl message)).
    set (t' := set_resolution R t0).
    assert (∀ w' t, tasks w' !! (gid, tid) = Some t ->
              taskGraphId t = gid -> taskId t = tid ->
              Handlers.completed that message w'
              = let w1 := set_tasks (<[(gid, tid) := set_resolution R t]> (tasks w')) w' in
                if negb (length (dependents t) =? 0)%nat
                then Handlers.scheduleDependentTasks that (set_resolution R t) w1
                else Handlers.checkTaskGraphFinished that gid tid w1) as Hrun.
    { intros w' t Ht' Hk1' Hk2'.
      rewrite (completed_run _ _ _ _ _ Hr Ht' Hk1' Hk2'), Hqt, Hs. cbn [commit_base].
      by rewrite Hk2'. }
    assert (tasks (set_tasks (<[(gid, tid) := t']> (tasks w)) w) !! (gid, tid) = Some t')
      as Hl1 by apply lookup_insert_eq.
    unfold run_to_end. rewrite (Hrun w t0 Ht Hk1 Hk2). cbv zeta. fold t'.
    set (w1 := set_tasks _ w).
    destruct (negb (length (dependents t0) =? 0)%nat) eqn:Hdeps.
    + pose proof (scheduleDependents_frame that (taskGraphId t') (dependents t') w1)
        as (Ha & Hb & Hc & Hdd).
      unfold Handlers.scheduleDependentTasks. cbv zeta in *.
      destruct (Handlers.scheduleDependents that (taskGraphId t') (dependents t') w1)
        as [v1 res1]. cbn [fst] in *.
      assert (detached v1 = []) as Hd1 by (by rewrite Hdd).
      rewrite (run_detached_nil _ _ Hd1).
      assert (tasks v1 !! (gid, tid) = Some t') as Hl2 by (by rewrite Ha).
      rewrite (Hrun v1 t' Hl2 Hk1 Hk2). cbv zeta.
      change (set_resolution R t') with t'.
      change (negb (length (dependents t') =? 0)%nat)
        with (negb (length (dependents t0) =? 0)%nat).
      rewrite Hdeps.
      pose proof (scheduleDependents_frame that (taskGraphId t') (dependents t')
                    (set_tasks (<[(gid, tid):=t']> (tasks v1)) v1))
        as (Ha2 & Hb2 & Hc2 & Hdd2).
      cbv zeta in *. unfold Handlers.scheduleDependentTasks.
      destruct (Handlers.scheduleDependents that (taskGraphId t') (dependents t')
                  (set_tasks (<[(gid, tid):=t']> (tasks v1)) v1)) as [v2 res2].
      cbn [fst] in *.
      assert (detached v2 = []) as Hd2 by (by rewrite Hdd2).
      rewrite (run_detached_nil _ _ Hd2). rewrite Ha2, Hb2, Hc2. simpl.
      split; [|done]. rewrite Ha. subst w1. simpl. by rewrite insert_insert_eq.
    + pose proof (checkTaskGraphFinished_frame that gid tid w1) as (Ha & Hdd & _).
      pose proof (finish_settles that gid tid w1 Hqg) as Hset.
      cbv zeta in *.
      destruct (Handlers.checkTaskGraphFinished that gid tid w1) as [v1 res1].
      cbn [fst] in *.
      assert (detached v1 = []) as Hd1 by (by rewrite Hdd).
      rewrite (run_detached_nil _ _ Hd1).
      assert (tasks v1 !! (gid, tid) = Some t') as Hl2 by (by rewrite Ha).
      rewrite (Hrun v1 t' Hl2 Hk1 Hk2). cbv zeta.
      change (set_resolution R t') with t'.
      change (negb (length (dependents t') =? 0)%nat)
        with (negb (length (dependents t0) =? 0)%nat).
      rewrite Hdeps.
      pose proof (finish_settled_noop that gid tid
                    (set_tasks (<[(gid, tid):=t']> (tasks v1)) v1) Hqg Hset)
        as (Ha2 & Hdd2 & Hb2 & Hc2).
      cbv zeta in *.
      destruct (Handlers.checkTaskGraphFinished that gid tid
                  (set_tasks (<[(gid, tid):=t']> (tasks v1)) v1)) as [v2 res2].
      cbn [fst] in *.
      assert (detached v2 = []) as Hd2 by (by rewrite Hdd2).
      rewrite (run_detached_nil _ _ Hd2). rewrite Ha2, Hb2, Hc2. simpl.
      split; [|done]. rewrite Ha. subst w1. simpl. by rewrite insert_insert_eq.
  - (* no success: no rerun is left *)
    assert (rerunsLeft t0 ≤ 0) as Hz.
    { destruct (decide (0 < rerunsLeft t0)) as [Hpos|]; [|lia].
      destruct Hsafe. split; [done|]. by exists gid, t0. }
    set (R := mkResolution true false (payload_resultUrl message) (payload_logsUrl message)).
    set (t' := set_resolution R t0).
    assert (∀ w' t, detached w' = [] -> tasks w' !! (gid, tid) = Some t ->
              taskGraphId t = gid -> taskId t = tid -> rerunsLeft t ≤ 0 ->
              run_to_end that (Handlers.completed that message) w'
              = run_one that
                  (set_tasks (<[(gid, tid) := set_resolution R t]> (tasks w')) w')
                  (BlockJob gid tid)) as Hrun.
    { intros w' t Hd' Ht' Hk1' Hk2' Hz'. unfold run_to_end.
      rewrite (completed_run _ _ _ _ _ Hr Ht' Hk1' Hk2'), Hqt, Hs. cbn [commit_base].
      rewrite bool_decide_eq_false_2 by lia. rewrite Hk1', Hk2'. cbn [fst].
      by apply run_block_job. }
    rewrite (Hrun w t0 Hd Ht Hk1 Hk2 Hz). fold t'.
    set (w1 := run_one that _ _).
    assert (tasks w1 = <[(gid, tid) := t']> (tasks w)) as Ht1 by apply run_one_tasks.
    assert (detached w1 = []) as Hd1.
    { subst w1. by destruct (run_one_frame that (set_tasks (<[(gid, tid):=t']> (tasks w)) w)
                               (BlockJob gid tid) Hqg) as (_ & -> & _). }
    assert (block_settled w1 gid) as Hs1 by (by apply block_settles).
    assert (tasks w1 !! (gid, tid) = Some t') as Hl1
      by (rewrite Ht1; apply lookup_insert_eq).
    rewrite (Hrun w1 t' Hd1 Hl1 Hk1 Hk2 Hz).
    change (set_resolution R t') with t'.
    pose proof (block_settled_noop that gid tid
                  (set_tasks (<[(gid, tid):=t']> (tasks w1)) w1) Hqg Hs1)
      as (Ha & _ & Hb & Hc).
    cbv zeta in *. rewrite Ha, Hb, Hc. simpl.
    split; [|done]. rewrite Ht1. by rewrite insert_insert_eq.
Qed.

(** One handled message keeps a resolution that is set. *)
Lemma handle_keeps_resolution (that : Env) (message : Message) (w : World)
    (key : string * string) (t0 : Task) (r0 : Resolution) :
  Task_conflicts that = [] ->
  tasks w !! key = Some t0 -> resolution t0 = Some r0 ->
  ∃ t' r', tasks (handle that message w) !! key = Some t'
    ∧ resolution t' = Some r'
    ∧ (r' = r0
       ∨ r' = mkResolution true true (payload_resultUrl message) (payload_logsUrl message)
       ∨ r' = mkResolution false false None None
       ∨ r' = mkResolution true false (payload_resultUrl message) (payload_logsUrl message)).
Proof.
  intros Hq Hl Hres. unfold handle, run_to_end.
  rewrite run_detached_tasks.
  pose proof (on_message_frame that message w) as (Ht & _). cbv zeta in Ht.
  destruct Ht as [-> | (gid & t1 & _ & Hl1 & _ & _ & t' & -> & Ht')].
  { exists t0, r0. by auto. }
  rewrite Hq in Ht'. simpl in Ht'.
  destruct (decide ((gid, payload_status_taskId message) = key)) as [<- | Hne].
  - rewrite lookup_insert_eq. rewrite Hl1 in Hl. injection Hl as ->.
    destruct Ht' as [-> | [-> | [-> | ->]]]; eexists _, _; (split; [done|]); simpl;
      (split; [done || exact Hres|]); by auto.
  - rewrite lookup_insert_ne by done. exists t0, r0. by auto.
Qed.

(** ** Properties of the handlers *)

(** C1 (what the code does): for a failed message, and for an unsuccessful
    completed message whose task has no rerun left, the handler's promise
    resolves with the block chain only started: at that point no graph row
    and no publication has changed, and the promise resolves whatever the
    chain will do, a rejection of the chain included. *)
Theorem C1_block_not_awaited (that : Env) (w : World) (message : Message)
    (gid : string) (t0 : Task) :
  let tid := payload_status_taskId message in
  routing_taskGraphId message = Some gid ->
  tasks w !! (gid, tid) = Some t0 -> taskGraphId t0 = gid -> taskId t0 = tid ->
  let t := commit_base t0 (Task_conflicts that) in
  (let r := Handlers.failed that message w in
   r.2 = Resolved tt ∧ taskGraphs r.1 = taskGraphs w ∧ published r.1 = published w
   ∧ detached r.1 = detached w ++ [BlockJob gid tid])
  ∧ (payload_success message = false -> rerunsLeft t ≤ 0 ->
     let r := Handlers.completed that message w in
     r.2 = Resolved tt ∧ taskGraphs r.1 = taskGraphs w ∧ published r.1 = published w
     ∧ detached r.1 = detached w ++ [BlockJob (taskGraphId t) (taskId t)]).
Proof.
  intros tid Hr Ht Hk1 Hk2 t. split.
  - cbv zeta. by rewrite (failed_run _ _ _ _ _ Hr Ht Hk1 Hk2).
  - intros Hs Hz. cbv zeta. rewrite (completed_run _ _ _ _ _ Hr Ht Hk1 Hk2).
    cbv zeta. rewrite Hs. fold t. rewrite bool_decide_eq_false_2 by lia. done.
Qed.

(** At the failing input: the broker is down, the graph is running; the
    handler resolves while the graph is still running and unpublished, and
    the rejection of the chain is handled by nobody.  The same for an
    unsuccessful completion of a task with no rerun left. *)
Lemma C1_witness :
  (let r := Handlers.failed Sample.broker_down Sample.failed_T Sample.w0 in
   let w' := run_detached Sample.broker_down r.1 in
   r.2 = Resolved tt
   ∧ taskGraphs r.1 = taskGraphs Sample.w0
   ∧ published r.1 = []
   ∧ state <$> taskGraphs w' !! "G" = Some blocked
   ∧ published w' = []
   ∧ unhandled w' = [PublishError])
  ∧ (let r := Handlers.completed Sample.broker_down Sample.unsuccessful_T Sample.w_spent in
     let w' := run_detached Sample.broker_down r.1 in
     r.2 = Resolved tt
     ∧ taskGraphs r.1 = taskGraphs Sample.w_spent
     ∧ published r.1 = []
     ∧ state <$> taskGraphs w' !! "G" = Some blocked
     ∧ published w' = []
     ∧ unhandled w' = [PublishError]).
Proof.
  split; cbv zeta.
  - pose proof (C1_block_not_awaited Sample.broker_down Sample.w0 Sample.failed_T "G"
                  Sample.T eq_refl eq_refl eq_refl eq_refl) as H.
    cbv zeta in H. destruct H as ((Hres & Hg & Hp & _) & _).
    split; [exact Hres|]. split; [exact Hg|]. split; [exact Hp|].
    vm_compute. done.
  - pose proof (C1_block_not_awaited Sample.broker_down Sample.w_spent
                  Sample.unsuccessful_T "G" _ eq_refl eq_refl eq_refl eq_refl) as H.
    cbv zeta in H. destruct H as (_ & H).
    destruct (H eq_refl ltac:(done)) as (Hres & Hg & Hp & _).
    split; [exact Hres|]. split; [exact Hg|]. split; [exact Hp|].
    vm_compute. done.
Defined.

(** C2: the graph-finish check.  With [g] the row the accepted write is
    computed from: when the task is not in [requiresLeft g] the row is
    written back as it is, nothing is published and without concurrent
    writers the world is untouched; otherwise the task is removed from
    [requiresLeft] and every other entry is kept, in its order and as often
    as it occurred (the new list is the longest sublist of the old one
    without the task), and exactly when nothing is left the state becomes
    [finished] and one [taskGraphFinished] event with the committed status
    and the stored routing follows the commit (appended after it when the
    broker accepts the call, which otherwise rejects the check). *)
Theorem C2_checkTaskGraphFinished (that : Env) (w : World) (gid tid : string)
    (g0 : TaskGraph) :
  taskGraphs w !! gid = Some g0 -> graphId g0 = gid ->
  let g := commit_base g0 (TaskGraph_conflicts that) in
  let r := Handlers.checkTaskGraphFinished that gid tid w in
  tasks r.1 = tasks w ∧ queueCalls r.1 = queueCalls w ∧ detached r.1 = detached w ∧
  (contains (requiresLeft g) tid = true ↔ tid ∈ requiresLeft g) ∧
  (if contains (requiresLeft g) tid then
     let rest := without (requiresLeft g) tid in
     (tid ∉ rest) ∧
     (∀ y, y ∈ rest ↔ y ∈ requiresLeft g ∧ y ≠ tid) ∧
     (rest `sublist_of` requiresLeft g) ∧
     (∀ k, k `sublist_of` requiresLeft g -> tid ∉ k -> k `sublist_of` rest) ∧
     (match rest with
      | [] =>
          let g' := set_state finished (set_requiresLeft [] g) in
          let ev := taskGraphFinished (status g') (routing g) in
          taskGraphs r.1 = <[gid := g']> (taskGraphs w) ∧
          (if publish_accepted that ev
           then published r.1 = published w ++ [ev] ∧ r.2 = Resolved tt
           else published r.1 = published w ∧ r.2 = Rejected PublishError)
      | _ :: _ =>
          taskGraphs r.1 = <[gid := set_requiresLeft rest g]> (taskGraphs w) ∧
          published r.1 = published w ∧ r.2 = Resolved tt
      end)
   else
     taskGraphs r.1 = <[gid := g]> (taskGraphs w) ∧
     published r.1 = published w ∧ r.2 = Resolved tt ∧
     (TaskGraph_conflicts that = [] -> r.1 = w)).
Proof.
  intros Hl Hg g r. subst r.
  rewrite (checkTaskGraphFinished_run _ _ _ _ _ Hl Hg). fold g. cbv zeta.
  unfold Handlers.finish_modifier.
  pose proof (contains_true (requiresLeft g) tid) as Hin.
  destruct (contains (requiresLeft g) tid) eqn:Hc; simpl.
  - pose proof (without_not_elem (requiresLeft g) tid) as Hni.
    pose proof (without_elem (requiresLeft g) tid) as Hel.
    pose proof (without_sublist (requiresLeft g) tid) as Hsub.
    pose proof (without_longest (requiresLeft g) tid) as Hmax.
    destruct (without (requiresLeft g) tid) as [|x rest] eqn:Hw; simpl.
    + unfold publish.
      destruct (publish_accepted that _); simpl;
        (do 3 (split; [done|])); (split; [exact Hin|]); (split; [exact Hni|]);
        (split; [exact Hel|]); (split; [exact Hsub|]); (split; [exact Hmax|]);
        by repeat split.
    + do 3 (split; [done|]). split; [exact Hin|]. split; [exact Hni|].
      split; [exact Hel|]. split; [exact Hsub|]. split; [exact Hmax|].
      by repeat split.
  - do 3 (split; [done|]). split; [exact Hin|].
    repeat split. intros Hq. subst g. rewrite Hq. simpl.
    rewrite (insert_id _ _ _ Hl). by destruct w.
Qed.

Lemma C2_witness :
  (let r := Handlers.checkTaskGraphFinished Sample.broker_up "G" "T" Sample.w0 in
   state <$> taskGraphs r.1 !! "G" = Some finished
   ∧ published r.1 = [taskGraphFinished (mkStatus "G" finished) "route.G"])
  ∧ (let r := Handlers.checkTaskGraphFinished Sample.broker_up "G" "T" Sample.w_TU in
     taskGraphs r.1 !! "G" = Some (mkTaskGraph "G" running ["U"] "route.G")
     ∧ published r.1 = [] ∧ r.2 = Resolved tt).
Proof.
  split; cbv zeta.
  - pose proof (C2_checkTaskGraphFinished Sample.broker_up Sample.w0 "G" "T" Sample.G
                  eq_refl eq_refl) as H.
    cbv zeta in H. destruct H as (_ & _ & _ & _ & H).
    change (contains _ _) with true in H. cbv iota in H.
    destruct H as (_ & _ & _ & _ & Hg & Hp & _).
    split.
    + rewrite Hg. rewrite lookup_insert_eq. reflexivity.
    + exact Hp.
  - pose proof (C2_checkTaskGraphFinished Sample.broker_up Sample.w_TU "G" "T"
                  Sample.G_TU eq_refl eq_refl) as H.
    cbv zeta in H. destruct H as (_ & _ & _ & _ & H).
    change (contains _ _) with true in H. cbv iota in H.
    destruct H as (_ & _ & _ & _ & Hg & Hp & Hr).
    split; [|split].
    + rewrite Hg. rewrite lookup_insert_eq. reflexivity.
    + exact Hp.
    + exact Hr.
Defined.

(** C3: a completed message with [success = false].  With [t] the task row
    the accepted write is computed from: when [rerunsLeft t > 0] the one
    modify stores the number that [rerunsLeft -= 1] gives, which is
    [rerunsLeft t - 1] for every budget up to 2^53 (where the subtraction of
    doubles is exact) and in any case neither negative nor above
    [rerunsLeft t], and leaves the resolution as it was, [queue.rerunTask]
    is called for the task, the handler settles as that call does, and
    neither a graph nor the broker is touched; otherwise the modify stores
    [{completed:true, success:false, resultUrl, logsUrl}] with [rerunsLeft]
    as it was, the queue is not called, and the block transition for the
    task's graph and taskId turns a running graph to [blocked] and
    publishes [taskGraphBlocked] with this taskId. *)
Theorem C3_rerunTaskOrBlock (that : Env) (w : World) (message : Message)
    (gid : string) (t0 : Task) :
  let tid := payload_status_taskId message in
  payload_success message = false ->
  routing_taskGraphId message = Some gid ->
  tasks w !! (gid, tid) = Some t0 -> taskGraphId t0 = gid -> taskId t0 = tid ->
  detached w = [] ->
  let t := commit_base t0 (Task_conflicts that) in
  let r := Handlers.completed that message w in
  let w' := run_to_end that (Handlers.completed that message) w in
  if bool_decide (0 < rerunsLeft t) then
    let t' := set_rerunsLeft (js_minus_one (rerunsLeft t)) t in
    tasks w' = <[(gid, tid) := t']> (tasks w)
    ∧ (rerunsLeft t ≤ 2 ^ 53 -> rerunsLeft t' = rerunsLeft t - 1)
    ∧ 0 ≤ rerunsLeft t' ∧ rerunsLeft t' ≤ rerunsLeft t
    ∧ resolution t' = resolution t
    ∧ queueCalls w' = queueCalls w ++ [rerunTask (taskId t)]
    ∧ r.2 = (if rerun_accepted that (taskId t) then Resolved tt else Rejected QueueError)
    ∧ taskGraphs w' = taskGraphs w ∧ published w' = published w
  else
    let t' :=
      set_resolution
        (mkResolution true false (payload_resultUrl message) (payload_logsUrl message)) t in
    tasks w' = <[(gid, tid) := t']> (tasks w)
    ∧ resolution t' =
        Some (mkResolution true false (payload_resultUrl message) (payload_logsUrl message))
    ∧ rerunsLeft t' = rerunsLeft t ∧ (0 ≤ rerunsLeft t -> 0 ≤ rerunsLeft t')
    ∧ queueCalls w' = queueCalls w
    ∧ r.2 = Resolved tt
    ∧ ∀ g0, taskGraphs w !! taskGraphId t = Some g0 -> graphId g0 = taskGraphId t ->
        let g := commit_base g0 (TaskGraph_conflicts that) in
        if bool_decide (state g = running) then
          let ev := taskGraphBlocked (status (set_state blocked g)) (taskId t) (routing g) in
          taskGraphs w' = <[taskGraphId t := set_state blocked g]> (taskGraphs w)
          ∧ published w' = published w ++ (if publish_accepted that ev then [ev] else [])
        else
          taskGraphs w' = <[taskGraphId t := g]> (taskGraphs w)
          ∧ published w' = published w.
Proof.
  intros tid Hs Hr Ht Hk1 Hk2 Hd t r w'. subst r w'.
  unfold run_to_end, Handlers.completed. rewrite Hr. cbv zeta. fold tid.
  rewrite then_run, (Task_load_Some _ _ _ _ Ht Hk1 Hk2), Hs.
  unfold Handlers.rerunTaskOrBlock.
  rewrite then_run, (Task_modify_run _ _ _ _ _ (rerun_modifier_reinit message)).
  cbv zeta. rewrite Hk1, Hk2. fold t. unfold Handlers.rerun_modifier.
  case_bool_decide as Hpos.
  - assert ((rerunsLeft t >? 0) = true) as -> by lia. cbn [fst snd].
    unfold queue_rerunTask. cbn [fst snd].
    rewrite run_detached_nil by (simpl; exact Hd).
    pose proof (js_minus_one_bounds (rerunsLeft t)) as [Hle Hnn].
    simpl. split; [done|]. split; [intros Hb; apply js_minus_one_exact; lia|].
    split; [by apply Hnn|]. by repeat split.
  - assert ((rerunsLeft t >? 0) = false) as -> by lia. cbn [fst snd].
    unfold Handlers.blockTaskGraph, detach. cbn [fst snd].
    split; [|split; [done|split; [done|split; [done|]]]].
    + set (w1 := add_detached _ _).
      assert (detached w1 = [BlockJob (taskGraphId t) (taskId t)]) as Hd1
        by (subst w1; simpl; by rewrite Hd).
      rewrite (run_detached_one _ _ _ Hd1).
      destruct (TaskGraph_load_cases (set_detached [] w1) (taskGraphId t))
        as [Hn|(g0 & _ & Hl & Hg)].
      * unfold run_one, run_job.
        by rewrite (blockTaskGraph_chain_NotFound _ _ _ _ Hn).
      * pose proof (run_one_block that _ _ (taskId t) g0 Hl Hg) as Hb.
        cbv zeta in Hb. by destruct Hb as (-> & _).
    + set (w1 := add_detached _ _).
      assert (detached w1 = [BlockJob (taskGraphId t) (taskId t)]) as Hd1
        by (subst w1; simpl; by rewrite Hd).
      rewrite (run_detached_one _ _ _ Hd1).
      split.
      { destruct (TaskGraph_load_cases (set_detached [] w1) (taskGraphId t))
          as [Hn|(g0 & _ & Hl & Hg)].
        - unfold run_one, run_job.
          by rewrite (blockTaskGraph_chain_NotFound _ _ _ _ Hn).
        - pose proof (run_one_block that _ _ (taskId t) g0 Hl Hg) as Hb.
          cbv zeta in Hb. by destruct Hb as (_ & -> & _). }
      split; [done|].
      intros g0 Hl Hg.
      assert (taskGraphs (set_detached [] w1) !! taskGraphId t = Some g0) as Hl1 by done.
      pose proof (run_one_block that _ _ (taskId t) g0 Hl1 Hg) as Hb.
      cbv zeta in Hb. destruct Hb as (_ & _ & _ & Hb).
      case_bool_decide; destruct Hb as (Hb1 & Hb2 & _); by split.
Qed.

Lemma C3_witness :
  (let w' := run_to_end Sample.broker_up
               (Handlers.completed Sample.broker_up Sample.unsuccessful_T) Sample.w0 in
   rerunsLeft <$> tasks w' !! ("G", "T") = Some 0
   ∧ queueCalls w' = [rerunTask "T"])
  ∧ (let w' := run_to_end Sample.broker_up
                 (Handlers.completed Sample.broker_up Sample.unsuccessful_T) Sample.w_spent in
     tasks w' !! ("G", "T")
       = Some (mkTask "G" "T" 0 [] []
                 (Some (mkResolution true false (Some "result") (Some "logs"))))
     ∧ queueCalls w' = []
     ∧ state <$> taskGraphs w' !! "G" = Some blocked
     ∧ published w' = [taskGraphBlocked (mkStatus "G" blocked) "T" "route.G"]).
Proof.
  split; cbv zeta.
  - pose proof (C3_rerunTaskOrBlock Sample.broker_up Sample.w0 Sample.unsuccessful_T "G"
                  Sample.T eq_refl eq_refl eq_refl eq_refl eq_refl eq_refl) as H.
    cbv zeta in H. destruct H as (Ht & Hone & _ & _ & _ & Hq & _).
    split.
    + rewrite Ht, lookup_insert_eq.
      exact (f_equal Some (Hone ltac:(by vm_compute))).
    + exact Hq.
  - pose proof (C3_rerunTaskOrBlock Sample.broker_up Sample.w_spent Sample.unsuccessful_T
                  "G" _ eq_refl eq_refl eq_refl eq_refl eq_refl eq_refl) as H.
    cbv zeta in H. destruct H as (Ht & _ & _ & _ & Hq & _ & Hg).
    specialize (Hg Sample.G eq_refl eq_refl). cbv zeta in Hg. destruct Hg as (Hg & Hp).
    split; [|split; [|split]].
    + rewrite Ht. by rewrite lookup_insert_eq.
    + exact Hq.
    + rewrite Hg. by rewrite lookup_insert_eq.
    + exact Hp.
Defined.

(** C4 (as the code has it): without concurrent writers of the graph rows,
    handling a message keeps every graph, a graph is blocked afterwards only
    if it was running or blocked before, a finished graph stays finished,
    and a blocked graph stays blocked or becomes finished. *)
Theorem C4_graph_transitions (that : Env) (message : Message) (w : World)
    (gid : string) (g0 : TaskGraph) :
  TaskGraph_conflicts that = [] ->
  taskGraphs w !! gid = Some g0 ->
  ∃ g', taskGraphs (handle that message w) !! gid = Some g'
    ∧ (state g' = blocked -> state g0 = running ∨ state g0 = blocked)
    ∧ (state g0 = finished -> state g' = finished)
    ∧ (state g0 = blocked -> state g' = blocked ∨ state g' = finished).
Proof.
  intros Hq Hl.
  assert (graphs_advance (taskGraphs w) (taskGraphs (handle that message w))) as Ha.
  { unfold handle, run_to_end.
    eapply graphs_advance_trans; [|apply run_detached_frame; exact Hq].
    pose proof (on_message_frame that message w) as (_ & Hg). cbv zeta in Hg.
    destruct Hg as [-> | (gid1 & tid1 & g1 & Hl1 & _ & ->)]; [apply graphs_advance_refl|].
    apply (graphs_advance_insert _ _ g1); [done|]. rewrite Hq. simpl.
    apply finish_modifier_rank. }
  destruct (Ha gid g0 Hl) as (g' & Hl' & Hr). exists g'. split; [done|].
  destruct (state g0), (state g'); simpl in Hr; repeat split; intros; try done; try lia; auto.
Qed.

Lemma C4_witness :
  ∃ g', taskGraphs (handle Sample.broker_up Sample.failed_T Sample.w0) !! "G" = Some g'
    ∧ (state g' = blocked -> state Sample.G = running ∨ state Sample.G = blocked)
    ∧ (state Sample.G = finished -> state g' = finished)
    ∧ (state Sample.G = blocked -> state g' = blocked ∨ state g' = finished).
Proof.
  exact (C4_graph_transitions Sample.broker_up Sample.failed_T Sample.w0 "G" Sample.G
           eq_refl eq_refl).
Defined.

(** C4 as stated fails: the task of a running graph fails, the graph is
    blocked; the same task then completes successfully and the finish check
    moves the blocked graph to finished. *)
Lemma C4_counterexample :
  let w1 := handle Sample.broker_up Sample.failed_T Sample.w0 in
  let w2 := handle Sample.broker_up Sample.succeeded_T w1 in
  state <$> taskGraphs Sample.w0 !! "G" = Some running
  ∧ state <$> taskGraphs w1 !! "G" = Some blocked
  ∧ state <$> taskGraphs w2 !! "G" = Some finished.
Proof. vm_compute. done. Qed.

(** C5: a failed message.  With [t] the task row the accepted write is
    computed from: the handler resolves after storing
    [{completed:false, success:false}] as the task's resolution with
    [rerunsLeft] as it was, the execution queue receives no call, and the
    block transition it starts for the graph and the failed task turns a
    running graph to [blocked] and publishes one [taskGraphBlocked] event
    with the failed taskId (when the broker accepts it); a graph that is
    not running is left as it is and nothing is published. *)
Theorem C5_failed (that : Env) (w : World) (message : Message) (gid : string)
    (t0 : Task) (g0 : TaskGraph) :
  let tid := payload_status_taskId message in
  routing_taskGraphId message = Some gid ->
  tasks w !! (gid, tid) = Some t0 -> taskGraphId t0 = gid -> taskId t0 = tid ->
  taskGraphs w !! gid = Some g0 -> graphId g0 = gid ->
  detached w = [] ->
  let t := commit_base t0 (Task_conflicts that) in
  let t' := set_resolution (mkResolution false false None None) t in
  let g := commit_base g0 (TaskGraph_conflicts that) in
  let w' := run_to_end that (Handlers.failed that message) w in
  (Handlers.failed that message w).2 = Resolved tt
  ∧ tasks w' = <[(gid, tid) := t']> (tasks w)
  ∧ resolution t' = Some (mkResolution false false None None)
  ∧ rerunsLeft t' = rerunsLeft t
  ∧ queueCalls w' = queueCalls w
  ∧ detached w' = []
  ∧ (if bool_decide (state g = running) then
       let ev := taskGraphBlocked (status (set_state blocked g)) tid (routing g) in
       taskGraphs w' = <[gid := set_state blocked g]> (taskGraphs w)
       ∧ published w' = published w ++ (if publish_accepted that ev then [ev] else [])
     else
       taskGraphs w' = <[gid := g]> (taskGraphs w) ∧ published w' = published w).
Proof.
  intros tid Hr Ht Hk1 Hk2 Hl Hg Hd t t' g w'. subst w'.
  unfold run_to_end, Handlers.failed. rewrite Hr. cbv zeta. fold tid.
  rewrite then_run, (Task_load_Some _ _ _ _ Ht Hk1 Hk2), then_run.
  rewrite (Task_modify_run _ _ _ _ _ failed_modifier_reinit). cbv zeta.
  rewrite Hk1, Hk2. unfold Handlers.failed_modifier, Handlers.blockTaskGraph, detach.
  cbn [fst snd]. fold t t'.
  set (w1 := add_detached _ _).
  assert (detached w1 = [BlockJob gid tid]) as Hd1 by (subst w1; simpl; by rewrite Hd).
  rewrite (run_detached_one _ _ _ Hd1).
  assert (taskGraphs (set_detached [] w1) !! gid = Some g0) as Hl1 by done.
  pose proof (run_one_block that _ gid tid g0 Hl1 Hg) as Hb. cbv zeta in Hb. fold g in Hb.
  destruct Hb as (Hbt & Hbq & Hbd & Hb).
  split; [done|]. split; [by rewrite Hbt|]. split; [done|]. split; [done|].
  split; [by rewrite Hbq|]. split; [by rewrite Hbd|].
  case_bool_decide; destruct Hb as (Hb1 & Hb2 & _); by split.
Qed.

Lemma C5_witness :
  let w' := run_to_end Sample.broker_up (Handlers.failed Sample.broker_up Sample.failed_T) Sample.w0 in
  resolution <$> tasks w' !! ("G", "T") = Some (Some (mkResolution false false None None))
  ∧ rerunsLeft <$> tasks w' !! ("G", "T") = Some 1
  ∧ queueCalls w' = []
  ∧ state <$> taskGraphs w' !! "G" = Some blocked
  ∧ published w' = [taskGraphBlocked (mkStatus "G" blocked) "T" "route.G"].
Proof.
  pose proof (C5_failed Sample.broker_up Sample.w0 Sample.failed_T "G" Sample.T Sample.G
                eq_refl eq_refl eq_refl eq_refl eq_refl eq_refl eq_refl) as H.
  cbv zeta in H. destruct H as (_ & Ht & _ & _ & Hq & _ & Hg & Hp).
  split; [|split; [|split; [|split]]].
  - rewrite Ht. by rewrite lookup_insert_eq.
  - rewrite Ht. by rewrite lookup_insert_eq.
  - exact Hq.
  - rewrite Hg. by rewrite lookup_insert_eq.
  - exact Hp.
Defined.

(** C6 (as the code has it): without concurrent writers of the task rows,
    handling a message keeps every task, and a resolution that was set is
    still set afterwards: it is the one it was, or one of the three
    resolutions the handlers write for the message; hence it is still set
    after any sequence of handled messages. *)
Theorem C6_resolution_stays_set (that : Env) (message : Message) (w : World)
    (key : string * string) (t0 : Task) (r0 : Resolution) :
  Task_conflicts that = [] ->
  tasks w !! key = Some t0 -> resolution t0 = Some r0 ->
  (∃ t' r', tasks (handle that message w) !! key = Some t'
     ∧ resolution t' = Some r'
     ∧ (r' = r0
        ∨ r' = mkResolution true true (payload_resultUrl message) (payload_logsUrl message)
        ∨ r' = mkResolution false false None None
        ∨ r' = mkResolution true false (payload_resultUrl message) (payload_logsUrl message)))
  ∧ (∀ messages : list Message,
       ∃ t' r', tasks (foldl (λ w' m, handle that m w') w messages) !! key = Some t'
         ∧ resolution t' = Some r').
Proof.
  intros Hq Hl Hres. split; [by apply (handle_keeps_resolution that message w key t0)|].
  intros messages. revert w t0 r0 Hl Hres.
  induction messages as [|m ms IH]; intros w t0 r0 Hl Hres; simpl.
  - by exists t0, r0.
  - destruct (handle_keeps_resolution that m w key t0 r0 Hq Hl Hres)
      as (t1 & r1 & Hl1 & Hres1 & _).
    by apply (IH _ t1 r1).
Qed.

Lemma C6_witness :
  (∃ t' r',
     tasks (handle Sample.broker_up Sample.failed_T Sample.w_succeeded) !! ("G", "T") = Some t'
     ∧ resolution t' = Some r'
     ∧ (r' = mkResolution true true (Some "result") (Some "logs")
        ∨ r' = mkResolution true true None None
        ∨ r' = mkResolution false false None None
        ∨ r' = mkResolution true false None None))
  ∧ (∀ messages : list Message,
       ∃ t' r',
         tasks (foldl (λ w' m, handle Sample.broker_up m w') Sample.w_succeeded messages)
           !! ("G", "T") = Some t'
         ∧ resolution t' = Some r').
Proof.
  exact (C6_resolution_stays_set Sample.broker_up Sample.failed_T Sample.w_succeeded
           ("G", "T") _ _ eq_refl eq_refl eq_refl).
Defined.

(** C6 as stated fails: the task's resolution was set by a successful
    completion; a failed message for the task then replaces it. *)
Lemma C6_counterexample :
  let w1 := handle Sample.broker_up Sample.succeeded_T Sample.w0 in
  let w2 := handle Sample.broker_up Sample.failed_T w1 in
  resolution <$> tasks w1 !! ("G", "T")
    = Some (Some (mkResolution true true (Some "result") (Some "logs")))
  ∧ resolution <$> tasks w2 !! ("G", "T")
    = Some (Some (mkResolution false false None None)).
Proof. vm_compute. done. Qed.

(** C7 (as the code has it): without concurrent writers and with no chain
    still detached, handling a message a second time on the world the first
    handling left changes no task row and no graph row and publishes nothing
    more, unless the message is an unsuccessful completion of a task that
    has reruns left. *)
Theorem C7_replay_changes_nothing (that : Env) (message : Message) (w : World) :
  Task_conflicts that = [] -> TaskGraph_conflicts that = [] -> detached w = [] ->
  ¬ consumes_rerun that message w ->
  let w1 := handle that message w in
  let w2 := handle that message w1 in
  tasks w2 = tasks w1 ∧ taskGraphs w2 = taskGraphs w1 ∧ published w2 = published w1.
Proof.
  intros Hqt Hqg Hd Hsafe. unfold handle, Handlers.on_message.
  destruct (String.eqb_spec (exchange message) (completedExchange that)) as [He|_].
  - apply (completed_twice that message w Hqt Hqg Hd).
    intros (Hs & Hex). apply Hsafe. by split.
  - destruct (String.eqb _ _).
    + by apply failed_twice.
    + cbv zeta. assert (∀ w', run_to_end that
                (reject (UnexpectedExchange (exchange message))) w' = run_detached that w')
        as Hrej by done.
      rewrite !Hrej. by rewrite !(run_detached_nil _ _ Hd).
Qed.

Lemma C7_witness :
  let w1 := handle Sample.broker_up Sample.succeeded_T Sample.w0 in
  let w2 := handle Sample.broker_up Sample.succeeded_T w1 in
  tasks w2 = tasks w1 ∧ taskGraphs w2 = taskGraphs w1 ∧ published w2 = published w1.
Proof.
  refine (C7_replay_changes_nothing Sample.broker_up Sample.succeeded_T Sample.w0
            eq_refl eq_refl eq_refl _).
  intros (_ & Hs & _). discriminate Hs.
Defined.

(** C7 as stated fails: a task with one rerun left completes without
    success; the first handling takes the rerun, the second handling of the
    same message resolves the task, blocks the graph and publishes
    [taskGraphBlocked]. *)
Lemma C7_counterexample :
  let w1 := handle Sample.broker_up Sample.unsuccessful_T Sample.w0 in
  let w2 := handle Sample.broker_up Sample.unsuccessful_T w1 in
  tasks w1 !! ("G", "T") = Some (mkTask "G" "T" 0 [] [] None)
  ∧ tasks w2 !! ("G", "T")
    = Some (mkTask "G" "T" 0 [] []
              (Some (mkResolution true false (Some "result") (Some "logs"))))
  ∧ state <$> taskGraphs w1 !! "G" = Some running
  ∧ state <$> taskGraphs w2 !! "G" = Some blocked
  ∧ published w1 = []
  ∧ published w2 = [taskGraphBlocked (mkStatus "G" blocked) "T" "route.G"].
Proof. vm_compute. done. Qed.

(** C8: a completed message with [success = true].  With [t] the task row
    the accepted write is computed from: the handler first stores
    [{completed:true, success:true, resultUrl, logsUrl}] as the task's
    resolution, then continues with dependent scheduling when the task has
    dependents and with the graph-finish check for the task when it has
    none; it starts no block transition, publishes no [taskGraphBlocked]
    event, and a graph that is blocked afterwards was blocked before (or
    was found blocked on a reload after a conflict). *)
Theorem C8_completed_success (that : Env) (w : World) (message : Message)
    (gid : string) (t0 : Task) :
  let tid := payload_status_taskId message in
  payload_success message = true ->
  routing_taskGraphId message = Some gid ->
  tasks w !! (gid, tid) = Some t0 -> taskGraphId t0 = gid -> taskId t0 = tid ->
  let t := commit_base t0 (Task_conflicts that) in
  let t' := set_resolution
              (mkResolution true true (payload_resultUrl message) (payload_logsUrl message)) t in
  let w1 := set_tasks (<[(gid, tid) := t']> (tasks w)) w in
  let r := Handlers.completed that message w in
  tasks r.1 = <[(gid, tid) := t']> (tasks w)
  ∧ resolution t' =
      Some (mkResolution true true (payload_resultUrl message) (payload_logsUrl message))
  ∧ (if negb (length (dependents t) =? 0)%nat
     then r = Handlers.scheduleDependentTasks that t' w1
     else r = Handlers.checkTaskGraphFinished that gid (taskId t) w1)
  ∧ detached r.1 = detached w
  ∧ (detached w = [] -> run_to_end that (Handlers.completed that message) w = r.1)
  ∧ (∃ evs, published r.1 = published w ++ evs ∧
            Forall (λ e, is_blocked_event e = false) evs)
  ∧ (∀ gid' g', taskGraphs r.1 !! gid' = Some g' -> state g' = blocked ->
       (∃ g0, taskGraphs w !! gid' = Some g0 ∧ state g0 = blocked)
       ∨ (∃ c, c ∈ TaskGraph_conflicts that ∧ state c = blocked)).
Proof.
  intros tid Hs Hr Ht Hk1 Hk2 t t' w1 r.
  assert (r = if negb (length (dependents t) =? 0)%nat
              then Handlers.scheduleDependentTasks that t' w1
              else Handlers.checkTaskGraphFinished that gid (taskId t) w1) as Hrun.
  { subst r. rewrite (completed_run _ _ _ _ _ Hr Ht Hk1 Hk2). cbv zeta. by rewrite Hs. }
  assert (tasks r.1 = tasks w1 ∧ detached r.1 = detached w1 ∧
          (∃ evs, published r.1 = published w1 ++ evs ∧
                  Forall (λ e, is_blocked_event e = false) evs) ∧
          (taskGraphs r.1 = taskGraphs w1 ∨
           ∃ g0, taskGraphs w1 !! gid = Some g0 ∧ graphId g0 = gid ∧
                 taskGraphs r.1 =
                 <[gid := (Handlers.finish_modifier (taskId t) false
                             (commit_base g0 (TaskGraph_conflicts that))).2]>
                   (taskGraphs w1))) as (Hft & Hfd & Hfp & Hfg).
  { rewrite Hrun. destruct (negb _).
    - pose proof (scheduleDependents_frame that (taskGraphId t') (dependents t') w1)
        as (H1 & H2 & H3 & H4).
      unfold Handlers.scheduleDependentTasks.
      split; [done|]. split; [done|]. split; [|by left].
      exists []. by rewrite app_nil_r.
    - apply checkTaskGraphFinished_frame. }
  split; [by rewrite Hft|]. split; [done|]. split.
  { rewrite Hrun. by destruct (negb _). }
  split; [by rewrite Hfd|]. split.
  { intros Hd. unfold run_to_end. fold r. apply run_detached_nil. by rewrite Hfd. }
  split; [done|].
  intros gid' g' Hl' Hb. destruct Hfg as [Heq | (g0 & Hl0 & Hg0 & Heq)].
  - left. exists g'. split; [|done]. by rewrite Heq in Hl'.
  - rewrite Heq in Hl'. destruct (decide (gid = gid')) as [<- | Hne].
    + rewrite lookup_insert_eq in Hl'. injection Hl' as <-.
      destruct (finish_modifier_state (taskId t) false
                  (commit_base g0 (TaskGraph_conflicts that))) as [Hst | Hst];
        rewrite Hst in Hb; [|done].
      destruct (commit_base_elem g0 (TaskGraph_conflicts that)) as [Hc | Hc].
      * left. exists g0. split; [done|]. by rewrite Hc in Hb.
      * right. by eexists.
    + rewrite lookup_insert_ne in Hl' by done. left. by exists g'.
Qed.

Lemma C8_witness :
  let r := Handlers.completed Sample.broker_up Sample.succeeded_T Sample.w0 in
  resolution <$> tasks r.1 !! ("G", "T")
    = Some (Some (mkResolution true true (Some "result") (Some "logs")))
  ∧ detached r.1 = [].
Proof.
  pose proof (C8_completed_success Sample.broker_up Sample.w0 Sample.succeeded_T "G"
                Sample.T eq_refl eq_refl eq_refl eq_refl eq_refl) as H.
  cbv zeta in H. destruct H as (Ht & _ & _ & Hd & _).
  split.
  - rewrite Ht. by rewrite lookup_insert_eq.
  - exact Hd.
Defined.

(** C9: dispatch in the listener's callback.  With the two bindings naming
    different exchanges, a message on the task-completed exchange goes to
    [completed], one on the task-failed exchange goes to [failed], and any
    other message raises the error naming its exchange and changes
    nothing. *)
Theorem C9_dispatch (that : Env) (message : Message) (w : World) :
  completedExchange that ≠ failedExchange that ->
  (exchange message = completedExchange that ->
     Handlers.on_message that message w = Handlers.completed that message w)
  ∧ (exchange message = failedExchange that ->
     Handlers.on_message that message w = Handlers.failed that message w)
  ∧ (exchange message ≠ completedExchange that ->
     exchange message ≠ failedExchange that ->
     Handlers.on_message that message w
       = (w, Rejected (UnexpectedExchange (exchange message)))).
Proof.
  intros Hne. unfold Handlers.on_message. split; [|split].
  - intros ->. by rewrite String.eqb_refl.
  - intros He. rewrite He.
    destruct (String.eqb_spec (failedExchange that) (completedExchange that)) as [Heq|_].
    + by destruct Hne.
    + by rewrite String.eqb_refl.
  - intros H1 H2.
    destruct (String.eqb_spec (exchange message) (completedExchange that)); [done|].
    destruct (String.eqb_spec (exchange message) (failedExchange that)); done.
Qed.

Lemma C9_witness :
  Handlers.on_message Sample.broker_up Sample.failed_T Sample.w0
    = Handlers.failed Sample.broker_up Sample.failed_T Sample.w0
  ∧ Handlers.on_message Sample.broker_up Sample.stray Sample.w0
    = (Sample.w0, Rejected (UnexpectedExchange "task-pending")).
Proof.
  split.
  - refine (proj1 (proj2 (C9_dispatch Sample.broker_up Sample.failed_T Sample.w0 _)) eq_refl).
    discriminate.
  - refine (proj2 (proj2 (C9_dispatch Sample.broker_up Sample.stray Sample.w0 _)) _ _);
      discriminate.
Defined.

(** C10: whenever the modify of [checkTaskGraphFinished] resolves with
    [taskGraphFinishedNow] true, the row it committed is the one in the
    table and its state is [finished]; whenever the modify of
    [blockTaskGraph] resolves with [wasRunning] true, the committed row's
    state is [blocked]; this holds for any rows reloaded after conflicts and
    any earlier value of the variable, so neither handler is ever rejected
    by the assertion in front of its publish call. *)
Theorem C10_publish_assertions_hold (that : Env) (w : World) (gid tid btid : string) :
  (∀ taskGraph v w' now g',
     TaskGraph_modify that taskGraph (Handlers.finish_modifier tid) v w
       = (w', Resolved (now, g')) ->
     now = true ->
     state g' = finished ∧ taskGraphs w' !! graphId taskGraph = Some g')
  ∧ (∀ taskGraph v w' wasRunning g',
     TaskGraph_modify that taskGraph Handlers.block_modifier v w
       = (w', Resolved (wasRunning, g')) ->
     wasRunning = true ->
     state g' = blocked ∧ taskGraphs w' !! graphId taskGraph = Some g')
  ∧ (∀ msg, (Handlers.checkTaskGraphFinished that gid tid w).2 ≠ Rejected (AssertionError msg))
  ∧ (∀ msg, (Handlers.blockTaskGraph_chain that gid btid w).2 ≠ Rejected (AssertionError msg)).
Proof.
  split; [|split; [|split]].
  - intros taskGraph v w' now g' Hm ->.
    apply (TaskGraph_modify_inv _ _ _ _ _ _ _ _ (finish_modifier_reinit tid)) in Hm
      as [Hm ->].
    split; [|apply lookup_insert_eq].
    pose proof (finish_modifier_flag tid v (commit_base taskGraph (TaskGraph_conflicts that))) as Hf.
    rewrite Hm in Hf. by apply Hf.
  - intros taskGraph v w' wasRunning g' Hm ->.
    apply (TaskGraph_modify_inv _ _ _ _ _ _ _ _ block_modifier_reinit) in Hm
      as [Hm ->].
    split; [|apply lookup_insert_eq].
    pose proof (block_modifier_flag v (commit_base taskGraph (TaskGraph_conflicts that))) as Hf.
    rewrite Hm in Hf. by apply Hf.
  - intros msg. destruct (TaskGraph_load_cases w gid) as [Hn|(g0 & _ & Hl & Hg)].
    + by rewrite (checkTaskGraphFinished_NotFound _ _ _ _ Hn).
    + rewrite (checkTaskGraphFinished_run _ _ _ _ _ Hl Hg). cbv zeta.
      destruct (Handlers.finish_modifier _ _ _).1; [|done].
      unfold publish. by destruct (publish_accepted _ _).
  - intros msg. destruct (TaskGraph_load_cases w gid) as [Hn|(g0 & _ & Hl & Hg)].
    + by rewrite (blockTaskGraph_chain_NotFound _ _ _ _ Hn).
    + rewrite (blockTaskGraph_chain_run _ _ _ _ _ Hl Hg). cbv zeta.
      destruct (Handlers.block_modifier _ _).1; [|done].
      unfold publish. by destruct (publish_accepted _ _).
Qed.

Lemma C10_witness :
  (let w' := set_taskGraphs (<["G" := mkTaskGraph "G" finished [] "route.G"]>
                               (taskGraphs Sample.w_TU)) Sample.w_TU in
   TaskGraph_modify Sample.contended Sample.G_TU (Handlers.finish_modifier "T") false
     Sample.w_TU
     = (w', Resolved (true, mkTaskGraph "G" finished [] "route.G"))
   ∧ state (mkTaskGraph "G" finished [] "route.G") = finished)
  ∧ (let w' := set_taskGraphs (<["G" := mkTaskGraph "G" blocked ["T"] "route.G"]>
                                 (taskGraphs Sample.w0)) Sample.w0 in
     TaskGraph_modify Sample.broker_up Sample.G Handlers.block_modifier true Sample.w0
       = (w', Resolved (true, mkTaskGraph "G" blocked ["T"] "route.G"))
     ∧ state (mkTaskGraph "G" blocked ["T"] "route.G") = blocked).
Proof.
  split; cbv zeta.
  - destruct (C10_publish_assertions_hold Sample.contended Sample.w_TU "G" "T" "T")
      as (Hfin & _).
    split; [reflexivity|].
    exact (proj1 (Hfin Sample.G_TU false _ true _ eq_refl eq_refl)).
  - destruct (C10_publish_assertions_hold Sample.broker_up Sample.w0 "G" "T" "T")
      as (_ & Hblk & _).
    split; [reflexivity|].
    exact (proj1 (Hblk Sample.G true _ true _ eq_refl eq_refl)).
Defined.

(** ** Further properties *)

(** *** Every handled message is a sequence of commits *)

Lemma checkTaskGraphFinished_commits that gid tid w :
  TaskGraph_conflicts that = [] ->
  rtc commit w (Handlers.checkTaskGraphFinished that gid tid w).1.
Proof.
  intros Hq. destruct (TaskGraph_load_cases w gid) as [Hn|(g0 & _ & Hl & Hg)].
  - rewrite (checkTaskGraphFinished_NotFound _ _ _ _ Hn). apply rtc_refl.
  - rewrite (checkTaskGraphFinished_run _ _ _ _ _ Hl Hg), Hq. cbn [commit_base].
    apply rtc_once.
    pose proof (commit_finish w gid tid g0
                  (publish_accepted that
                     (taskGraphFinished (status (Handlers.finish_modifier tid false g0).2)
                        (routing (Handlers.finish_modifier tid false g0).2))) Hl Hg) as Hc.
    cbv zeta in *. unfold publish.
    destruct (Handlers.finish_modifier tid false g0).1; [|exact Hc].
    by destruct (publish_accepted that _).
Qed.

Lemma run_one_commits that w j :
  TaskGraph_conflicts that = [] -> rtc commit w (run_one that w j).
Proof.
  intros Hq. destruct j as [gid btid]. unfold run_one, run_job.
  destruct (TaskGraph_load_cases w gid) as [Hn|(g0 & _ & Hl & Hg)].
  - rewrite (blockTaskGraph_chain_NotFound _ _ _ _ Hn). apply rtc_once, commit_unhandled.
  - rewrite (blockTaskGraph_chain_run _ _ _ _ _ Hl Hg), Hq. cbn [commit_base].
    pose proof (commit_block w gid btid g0
                  (publish_accepted that
                     (taskGraphBlocked (status (Handlers.block_modifier false g0).2) btid
                        (routing (Handlers.block_modifier false g0).2))) Hl Hg) as Hc.
    cbv zeta in *. unfold publish.
    destruct (Handlers.block_modifier false g0).1; [|by apply rtc_once].
    destruct (publish_accepted that _); [by apply rtc_once|].
    eapply rtc_r; [by apply rtc_once|]. apply commit_unhandled.
Qed.

Lemma run_detached_commits that w :
  TaskGraph_conflicts that = [] -> rtc commit w (run_detached that w).
Proof.
  intros Hq. unfold run_detached.
  eapply rtc_l; [apply commit_drain|].
  generalize (set_detached [] w). generalize (detached w).
  intros js. induction js as [|j js IH]; intros w0; simpl; [apply rtc_refl|].
  etrans; [by apply run_one_commits|apply IH].
Qed.

Lemma scheduleDependents_commits that gid ds w :
  rtc commit w (Handlers.scheduleDependents that gid ds w).1.
Proof.
  revert w. induction ds as [|d ds IH]; intros w; simpl; [apply rtc_refl|].
  rewrite then_run.
  destruct (Task_load_cases w gid d) as [-> | (dt & -> & _)]; [apply rtc_refl|].
  rewrite then_run, then_run.
  destruct (forallb _ _); [|apply IH].
  unfold queue_scheduleTask.
  destruct (schedule_accepted that d).
  - eapply rtc_l; [apply commit_queueCall|apply IH].
  - apply rtc_once, commit_queueCall.
Qed.

Lemma on_message_commits that message w :
  Task_conflicts that = [] -> TaskGraph_conflicts that = [] ->
  rtc commit w (Handlers.on_message that message w).1.
Proof.
  intros Hqt Hqg. unfold Handlers.on_message.
  destruct (String.eqb _ _); [|destruct (String.eqb _ _)]; [| |apply rtc_refl].
  - destruct (routing_taskGraphId message) as [gid|] eqn:Hr;
      [|rewrite completed_NotFound by (by rewrite Hr); apply rtc_refl].
    destruct (Task_load_cases w gid (payload_status_taskId message))
      as [Hn | (t0 & _ & Ht & Hk1 & Hk2)].
    { rewrite completed_NotFound; [apply rtc_refl|]. intros gid' ?. by simplify_eq. }
    rewrite (completed_run _ _ _ _ _ Hr Ht Hk1 Hk2), Hqt. cbn [commit_base]. cbv zeta.
    destruct (payload_success message).
    + eapply rtc_l; [eapply commit_resolution, Ht|].
      destruct (negb _).
      * apply scheduleDependents_commits.
      * by apply checkTaskGraphFinished_commits.
    + case_bool_decide as Hpos.
      * unfold queue_rerunTask. cbn [fst].
        eapply rtc_l; [apply (commit_rerun w _ t0 Ht Hpos)|].
        apply rtc_once, commit_queueCall.
      * cbn [fst]. eapply rtc_l; [eapply commit_resolution, Ht|].
        apply rtc_once, commit_detach.
  - destruct (routing_taskGraphId message) as [gid|] eqn:Hr;
      [|rewrite failed_NotFound by (by rewrite Hr); apply rtc_refl].
    destruct (Task_load_cases w gid (payload_status_taskId message))
      as [Hn | (t0 & _ & Ht & Hk1 & Hk2)].
    { rewrite failed_NotFound; [apply rtc_refl|]. intros gid' ?. by simplify_eq. }
    rewrite (failed_run _ _ _ _ _ Hr Ht Hk1 Hk2), Hqt. cbn [commit_base fst].
    eapply rtc_l; [eapply commit_resolution, Ht|].
    apply rtc_once, commit_detach.
Qed.

Lemma handle_commits that message w :
  Task_conflicts that = [] -> TaskGraph_conflicts that = [] ->
  rtc commit w (handle that message w).
Proof.
  intros Hqt Hqg. unfold handle, run_to_end.
  etrans; [by apply on_message_commits|by apply run_detached_commits].
Qed.

Lemma handle_all_commits that messages w :
  Task_conflicts that = [] -> TaskGraph_conflicts that = [] ->
  rtc commit w (handle_all that messages w).
Proof.
  intros Hqt Hqg. unfold handle_all. revert w.
  induction messages as [|m ms IH]; intros w; simpl; [apply rtc_refl|].
  etrans; [by apply handle_commits|apply IH].
Qed.

(** An invariant of the commits is an invariant of handling messages. *)
Lemma commits_preserve (P : World -> Prop) (w w' : World) :
  (∀ v v', commit v v' -> P v -> P v') -> rtc commit w w' -> P w -> P w'.
Proof. intros Hstep Hrtc. induction Hrtc as [|v1 v2 v3 H12 _ IH]; eauto. Qed.

(** *** What the modifiers keep *)

Lemma finish_modifier_fields tid v g :
  let m := Handlers.finish_modifier tid v g in
  graphId m.2 = graphId g ∧ routing m.2 = routing g
  ∧ requiresLeft m.2 `sublist_of` requiresLeft g
  ∧ (m.1 = true -> requiresLeft m.2 = [] ∧ tid ∈ requiresLeft g)
  ∧ (tid ∉ requiresLeft g -> m = (false, g)).
Proof.
  cbv zeta. unfold Handlers.finish_modifier.
  destruct (contains (requiresLeft g) tid) eqn:Hc; simpl.
  - assert (tid ∈ requiresLeft g) as Hin by (by apply bool_decide_eq_true in Hc).
    destruct (length (without (requiresLeft g) tid) =? 0)%nat eqn:Hlen; simpl.
    + repeat split; try done; try apply sublist_filter.
      apply Nat.eqb_eq in Hlen. by destruct (without (requiresLeft g) tid).
    + repeat split; try done; try apply sublist_filter.
  - repeat split; done.
Qed.

Lemma block_modifier_fields v g :
  let m := Handlers.block_modifier v g in
  graphId m.2 = graphId g ∧ routing m.2 = routing g
  ∧ requiresLeft m.2 = requiresLeft g
  ∧ state m.2 ≠ running
  ∧ (m.1 = true -> state g = running)
  ∧ (state g ≠ running -> m = (false, g)).
Proof.
  cbv zeta. unfold Handlers.block_modifier.
  case_bool_decide as Hs; simpl; repeat split; done.
Qed.

Lemma count_events_snoc p evs e :
  count_events p (evs ++ [e]) = (count_events p evs + (if p e then 1 else 0))%nat.
Proof.
  unfold count_events. rewrite List.filter_app, length_app. simpl.
  by destruct (p e).
Qed.

(** *** Invariants of the commits *)

Lemma graphs_kept_refl m : graphs_kept m m.
Proof. intros gid. destruct (m !! gid) as [g|] eqn:H; [|done]. by exists g. Qed.

Lemma graphs_kept_trans m1 m2 m3 :
  graphs_kept m1 m2 -> graphs_kept m2 m3 -> graphs_kept m1 m3.
Proof.
  intros H12 H23 gid. specialize (H12 gid). specialize (H23 gid).
  destruct (m1 !! gid) as [g1|].
  - destruct H12 as (g2 & Hl2 & Hi & Hr & Hs). rewrite Hl2 in H23.
    destruct H23 as (g3 & Hl3 & Hi3 & Hr3 & Hs3). exists g3.
    split; [done|]. split; [congruence|]. split; [congruence|]. by etrans.
  - by rewrite H12 in H23.
Qed.

Lemma graphs_kept_insert m gid g g' :
  m !! gid = Some g -> graphId g' = graphId g -> routing g' = routing g ->
  requiresLeft g' `sublist_of` requiresLeft g ->
  graphs_kept m (<[gid := g']> m).
Proof.
  intros Hl Hi Hr Hs gid'. destruct (decide (gid = gid')) as [<- | Hne].
  - rewrite Hl, lookup_insert_eq. by exists g'.
  - rewrite lookup_insert_ne by done. destruct (m !! gid') as [g1|]; [|done]. by exists g1.
Qed.

Lemma commit_graphs_kept v v' : commit v v' -> graphs_kept (taskGraphs v) (taskGraphs v').
Proof.
  destruct 1 as [w key t r Hl | w key t Hl Hpos | w c | w j | w | w e
                | w gid tid g acc Hl Hg | w gid btid g acc Hl Hg];
    try apply graphs_kept_refl.
  - pose proof (finish_modifier_fields tid false g) as (Hi & Hr & Hs & _).
    cbv zeta in *.
    assert (taskGraphs
              (if (Handlers.finish_modifier tid false g).1 && acc
               then add_published
                      (taskGraphFinished (status (Handlers.finish_modifier tid false g).2)
                         (routing (Handlers.finish_modifier tid false g).2))
                      (set_taskGraphs
                         (<[gid:=(Handlers.finish_modifier tid false g).2]> (taskGraphs w)) w)
               else set_taskGraphs
                      (<[gid:=(Handlers.finish_modifier tid false g).2]> (taskGraphs w)) w)
            = <[gid:=(Handlers.finish_modifier tid false g).2]> (taskGraphs w)) as ->
      by (by destruct (_ && _)).
    by apply (graphs_kept_insert _ _ g).
  - pose proof (block_modifier_fields false g) as (Hi & Hr & Hs & _).
    cbv zeta in *.
    assert (taskGraphs
              (if (Handlers.block_modifier false g).1 && acc
               then add_published
                      (taskGraphBlocked (status (Handlers.block_modifier false g).2) btid
                         (routing (Handlers.block_modifier false g).2))
                      (set_taskGraphs
                         (<[gid:=(Handlers.block_modifier false g).2]> (taskGraphs w)) w)
               else set_taskGraphs
                      (<[gid:=(Handlers.block_modifier false g).2]> (taskGraphs w)) w)
            = <[gid:=(Handlers.block_modifier false g).2]> (taskGraphs w)) as ->
      by (by destruct (_ && _)).
    apply (graphs_kept_insert _ _ g); [done|done|done|by rewrite Hs].
Qed.

Lemma tasks_kept_refl m : tasks_kept m m.
Proof.
  intros key. destruct (m !! key) as [t|] eqn:H; [|done]. exists t. repeat split; done || lia.
Qed.

Lemma tasks_kept_trans m1 m2 m3 :
  tasks_kept m1 m2 -> tasks_kept m2 m3 -> tasks_kept m1 m3.
Proof.
  intros H12 H23 key. specialize (H12 key). specialize (H23 key).
  destruct (m1 !! key) as [t1|].
  - destruct H12 as (t2 & Hl2 & Ha & Hb & Hc & Hd & He & Hf). rewrite Hl2 in H23.
    destruct H23 as (t3 & Hl3 & Ha3 & Hb3 & Hc3 & Hd3 & He3 & Hf3). exists t3.
    repeat split; try congruence; try lia; auto.
  - by rewrite H12 in H23.
Qed.

Lemma tasks_kept_insert m key t t' :
  m !! key = Some t -> taskGraphId t' = taskGraphId t -> taskId t' = taskId t ->
  dependents t' = dependents t -> requires t' = requires t ->
  rerunsLeft t' ≤ rerunsLeft t -> (0 ≤ rerunsLeft t -> 0 ≤ rerunsLeft t') ->
  tasks_kept m (<[key := t']> m).
Proof.
  intros Hl ? ? ? ? ? ? key'. destruct (decide (key = key')) as [<- | Hne].
  - rewrite Hl, lookup_insert_eq. by exists t'.
  - rewrite lookup_insert_ne by done. destruct (m !! key') as [t1|]; [|done].
    exists t1. repeat split; done || lia.
Qed.

Lemma commit_tasks_kept v v' : commit v v' -> tasks_kept (tasks v) (tasks v').
Proof.
  destruct 1 as [w key t r Hl | w key t Hl Hpos | w c | w j | w | w e
                | w gid tid g acc Hl Hg | w gid btid g acc Hl Hg];
    try apply tasks_kept_refl.
  - apply (tasks_kept_insert _ _ t); simpl; done || lia.
  - pose proof (js_minus_one_bounds (rerunsLeft t)) as [Hle Hnn].
    apply (tasks_kept_insert _ _ t); simpl; done || lia.
  - cbv zeta. destruct (_ && _); apply tasks_kept_refl.
  - cbv zeta. destruct (_ && _); apply tasks_kept_refl.
Qed.

Lemma commit_finished_means_done v v' :
  commit v v' -> finished_means_done v -> finished_means_done v'.
Proof.
  destruct 1 as [w key t r Hl | w key t Hl Hpos | w c | w j | w | w e
                | w gid tid g acc Hl Hg | w gid btid g acc Hl Hg];
    try done.
  - intros HP gid' g' Hl' Hfin. cbv zeta in Hl'.
    assert (<[gid:=(Handlers.finish_modifier tid false g).2]> (taskGraphs w) !! gid'
            = Some g') as Hl2 by (by destruct (_ && _)).
    clear Hl'. destruct (decide (gid = gid')) as [<- | Hne].
    + rewrite lookup_insert_eq in Hl2. injection Hl2 as <-.
      pose proof (finish_modifier_fields tid false g) as (_ & _ & Hs & Hflag & _).
      cbv zeta in *.
      destruct (finish_modifier_state tid false g) as [Hst | Hst].
      * rewrite Hfin in Hst. symmetry in Hst.
        rewrite (HP gid g Hl Hst) in Hs. by apply sublist_nil_r.
      * destruct (Handlers.finish_modifier tid false g).1 eqn:Hm; [by apply Hflag|].
        (* the flag is unset, so the state was not written *)
        revert Hfin Hm. unfold Handlers.finish_modifier.
        destruct (contains _ _); simpl.
        -- destruct (_ =? _)%nat eqn:Hlen; simpl; [done|].
           intros Hfin _. pose proof (HP gid g Hl Hfin) as Hnil.
           rewrite Hnil in Hlen. done.
        -- intros Hfin _. by apply (HP gid g).
    + rewrite lookup_insert_ne in Hl2 by done. by apply (HP gid' g').
  - intros HP gid' g' Hl' Hfin. cbv zeta in Hl'.
    assert (<[gid:=(Handlers.block_modifier false g).2]> (taskGraphs w) !! gid'
            = Some g') as Hl2 by (by destruct (_ && _)).
    clear Hl'. destruct (decide (gid = gid')) as [<- | Hne].
    + rewrite lookup_insert_eq in Hl2. injection Hl2 as <-.
      revert Hfin. unfold Handlers.block_modifier.
      case_bool_decide as Hs; simpl; [done|]. exact (HP gid g Hl).
    + rewrite lookup_insert_ne in Hl2 by done. by apply (HP gid' g').
Qed.

Lemma count_after_publish p evs (b : bool) e :
  count_events p (evs ++ (if b then [e] else []))
  = (count_events p evs + (if b && p e then 1 else 0))%nat.
Proof.
  destruct b; simpl.
  - apply count_events_snoc.
  - rewrite app_nil_r. lia.
Qed.

Lemma commit_accounted v v' :
  commit v v' -> (∀ gid, accounted v gid) -> ∀ gid, accounted v' gid.
Proof.
  destruct 1 as [w key t r Hl | w key t Hl Hpos | w c | w j | w | w e
                | w gid tid g acc Hl Hg | w gid btid g acc Hl Hg];
    try done.
  - (* the finish check commits *)
    intros HP gid0. specialize (HP gid0).
    pose proof (finish_modifier_fields tid false g) as (Hi & _ & Hs & Hflag & _).
    pose proof (finish_modifier_state tid false g) as Hst.
    cbv zeta in *.
    set (m := Handlers.finish_modifier tid false g) in *.
    set (ev := taskGraphFinished (status m.2) (routing m.2)).
    set (w' := if m.1 && acc then _ else _).
    assert (taskGraphs w' = <[gid := m.2]> (taskGraphs w)) as Htg
      by (subst w'; by destruct (_ && _)).
    assert (published w' = published w ++ (if m.1 && acc then [ev] else [])) as Hpub
      by (subst w'; destruct (_ && _); simpl; by rewrite ?app_nil_r).
    assert (finished_for gid0 ev = String.eqb gid gid0) as Hfor
      by (subst ev; simpl; by rewrite Hi, Hg).
    destruct HP as [Hb Hf]. unfold accounted. rewrite Hpub, !count_after_publish, Hfor.
    change (blocked_for gid0 ev) with false. rewrite andb_false_r, Nat.add_0_r.
    destruct (String.eqb_spec gid gid0) as [<- | Hne].
    + split.
      * destruct Hb as [Hb | [Hb Hset]]; [by left|right]. split; [done|].
        intros g1. rewrite Htg, lookup_insert_eq. intros [= <-] _.
        pose proof (Hset g Hl Hg). destruct Hst as [-> | ->]; done.
      * rewrite andb_true_r. destruct (m.1 && acc) eqn:Hpb.
        -- apply andb_true_iff in Hpb as [Hm _]. destruct (Hflag Hm) as [Hnil Hin].
           destruct Hf as [Hf | [_ Hdone]].
           ++ right. split; [lia|]. intros g1. rewrite Htg, lookup_insert_eq.
              by intros [= <-] _.
           ++ rewrite (Hdone g Hl Hg) in Hin. by apply elem_of_nil in Hin.
        -- rewrite Nat.add_0_r. destruct Hf as [Hf | [Hf Hdone]]; [by left|right].
           split; [done|]. intros g1. rewrite Htg, lookup_insert_eq. intros [= <-] _.
           rewrite (Hdone g Hl Hg) in Hs. by apply sublist_nil_r.
    + rewrite andb_false_r, Nat.add_0_r. unfold block_settled. rewrite Htg.
      rewrite lookup_insert_ne by done. exact (conj Hb Hf).
  - (* the block transition commits *)
    intros HP gid0. specialize (HP gid0).
    pose proof (block_modifier_fields false g) as (Hi & _ & Hrl & Hnr & Hflag & Hid).
    cbv zeta in *.
    set (m := Handlers.block_modifier false g) in *.
    set (ev := taskGraphBlocked (status m.2) btid (routing m.2)).
    set (w' := if m.1 && acc then _ else _).
    assert (taskGraphs w' = <[gid := m.2]> (taskGraphs w)) as Htg
      by (subst w'; by destruct (_ && _)).
    assert (published w' = published w ++ (if m.1 && acc then [ev] else [])) as Hpub
      by (subst w'; destruct (_ && _); simpl; by rewrite ?app_nil_r).
    assert (blocked_for gid0 ev = String.eqb gid gid0) as Hfor
      by (subst ev; simpl; by rewrite Hi, Hg).
    destruct HP as [Hb Hf]. unfold accounted. rewrite Hpub, !count_after_publish, Hfor.
    change (finished_for gid0 ev) with false. rewrite andb_false_r, Nat.add_0_r.
    destruct (String.eqb_spec gid gid0) as [<- | Hne].
    + split.
      * rewrite andb_true_r. destruct (m.1 && acc) eqn:Hpb.
        -- apply andb_true_iff in Hpb as [Hm _]. pose proof (Hflag Hm) as Hrun.
           destruct Hb as [Hb | [_ Hset]].
           ++ right. split; [lia|]. intros g1. rewrite Htg, lookup_insert_eq.
              by intros [= <-] _.
           ++ by destruct (Hset g Hl Hg).
        -- rewrite Nat.add_0_r. destruct Hb as [Hb | [Hb Hset]]; [by left|right].
           split; [done|]. intros g1. rewrite Htg, lookup_insert_eq. by intros [= <-] _.
      * destruct Hf as [Hf | [Hf Hdone]]; [by left|right]. split; [done|].
        intros g1. rewrite Htg, lookup_insert_eq. intros [= <-] _.
        rewrite Hrl. by apply (Hdone g).
    + rewrite andb_false_r, Nat.add_0_r. unfold block_settled. rewrite Htg.
      rewrite lookup_insert_ne by done. exact (conj Hb Hf).
Qed.

(** *** Invariants of handling messages *)

(** X1: without concurrent writers, handling any list of messages creates and
    deletes no graph row, never changes a graph's identifier or routing, and
    only ever removes entries from [requiresLeft]. *)
Theorem X1_graph_rows_kept (that : Env) (messages : list Message) (w : World) :
  Task_conflicts that = [] -> TaskGraph_conflicts that = [] ->
  graphs_kept (taskGraphs w) (taskGraphs (handle_all that messages w)).
Proof.
  intros Hqt Hqg.
  apply (commits_preserve (λ v, graphs_kept (taskGraphs w) (taskGraphs v)) w).
  - intros v v' Hc Hk. eapply graphs_kept_trans; [exact Hk|by apply commit_graphs_kept].
  - by apply handle_all_commits.
  - apply graphs_kept_refl.
Qed.

Lemma X1_witness :
  graphs_kept (taskGraphs Sample.w_TU)
    (taskGraphs (handle_all Sample.broker_up
                   [Sample.succeeded_T; Sample.failed_T; Sample.succeeded_T] Sample.w_TU)).
Proof. exact (X1_graph_rows_kept Sample.broker_up _ Sample.w_TU eq_refl eq_refl). Defined.

(** X2: without concurrent writers, handling any list of messages creates and
    deletes no task row, never changes a task's identifiers, [dependents] or
    [requires], never raises [rerunsLeft] and never makes a non-negative
    [rerunsLeft] negative. *)
Theorem X2_task_rows_kept (that : Env) (messages : list Message) (w : World) :
  Task_conflicts that = [] -> TaskGraph_conflicts that = [] ->
  tasks_kept (tasks w) (tasks (handle_all that messages w)).
Proof.
  intros Hqt Hqg.
  apply (commits_preserve (λ v, tasks_kept (tasks w) (tasks v)) w).
  - intros v v' Hc Hk. eapply tasks_kept_trans; [exact Hk|by apply commit_tasks_kept].
  - by apply handle_all_commits.
  - apply tasks_kept_refl.
Qed.

Lemma X2_witness :
  tasks_kept (tasks Sample.w0)
    (tasks (handle_all Sample.broker_up
              [Sample.unsuccessful_T; Sample.unsuccessful_T; Sample.failed_T] Sample.w0)).
Proof. exact (X2_task_rows_kept Sample.broker_up _ Sample.w0 eq_refl eq_refl). Defined.

(** X3: without concurrent writers, if every finished graph has an empty
    [requiresLeft], this is still so after handling any list of messages. *)
Theorem X3_finished_requires_nothing (that : Env) (messages : list Message) (w : World) :
  Task_conflicts that = [] -> TaskGraph_conflicts that = [] ->
  finished_means_done w -> finished_means_done (handle_all that messages w).
Proof.
  intros Hqt Hqg. apply commits_preserve.
  - apply commit_finished_means_done.
  - by apply handle_all_commits.
Qed.

Lemma X3_witness :
  finished_means_done
    (handle_all Sample.broker_up [Sample.failed_T; Sample.succeeded_T] Sample.w0).
Proof.
  apply (X3_finished_requires_nothing Sample.broker_up _ Sample.w0 eq_refl eq_refl).
  intros gid g Hl Hfin. unfold Sample.w0 in Hl. simpl in Hl.
  apply lookup_singleton_Some in Hl as [_ <-]. discriminate Hfin.
Defined.

(** X4: without concurrent writers, starting with nothing published, handling
    any list of messages publishes for each graph at most one
    [taskGraphFinished] event and at most one [taskGraphBlocked] event. *)
Theorem X4_terminal_events_at_most_once (that : Env) (messages : list Message)
    (w : World) (gid : string) :
  Task_conflicts that = [] -> TaskGraph_conflicts that = [] ->
  published w = [] ->
  let w' := handle_all that messages w in
  (count_events (finished_for gid) (published w') ≤ 1)%nat
  ∧ (count_events (blocked_for gid) (published w') ≤ 1)%nat.
Proof.
  intros Hqt Hqg Hp w'.
  assert (∀ gid', accounted w' gid') as Hacc.
  { apply (commits_preserve (λ v, ∀ gid', accounted v gid') w).
    - intros v v' Hc. by apply commit_accounted.
    - by apply handle_all_commits.
    - intros gid'. unfold accounted. rewrite Hp. by split; left. }
  destruct (Hacc gid) as [[Hb | [Hb _]] [Hf | [Hf _]]]; lia.
Qed.

Lemma X4_witness :
  let w' := handle_all Sample.broker_up
              [Sample.failed_T; Sample.failed_T; Sample.succeeded_T; Sample.succeeded_T]
              Sample.w0 in
  (count_events (finished_for "G") (published w') ≤ 1)%nat
  ∧ (count_events (blocked_for "G") (published w') ≤ 1)%nat.
Proof.
  exact (X4_terminal_events_at_most_once Sample.broker_up _ Sample.w0 "G"
           eq_refl eq_refl eq_refl).
Defined.

(** *** The rerun budget *)

Lemma set_rerunsLeft_same (t : Task) : set_rerunsLeft (rerunsLeft t) t = t.
Proof. by destruct t. Qed.

Lemma handle_takes_rerun that message w gid t :
  Task_conflicts that = [] -> detached w = [] ->
  exchange message = completedExchange that -> payload_success message = false ->
  routing_taskGraphId message = Some gid ->
  tasks w !! (gid, payload_status_taskId message) = Some t ->
  taskGraphId t = gid -> taskId t = payload_status_taskId message ->
  0 < rerunsLeft t ->
  handle that message w
  = add_queueCall (rerunTask (payload_status_taskId message))
      (set_tasks (<[(gid, payload_status_taskId message) :=
                      set_rerunsLeft (js_minus_one (rerunsLeft t)) t]> (tasks w)) w).
Proof.
  intros Hqt Hd He Hs Hr Ht Hk1 Hk2 Hpos.
  unfold handle, run_to_end, Handlers.on_message. rewrite He, String.eqb_refl.
  rewrite (completed_run _ _ _ _ _ Hr Ht Hk1 Hk2), Hqt, Hs. cbn [commit_base]. cbv zeta.
  rewrite bool_decide_eq_true_2 by done. unfold queue_rerunTask. cbn [fst].
  rewrite Hk2. by apply run_detached_nil.
Qed.

(** X5: without concurrent writers of the task, handling the unsuccessful
    completion of a task [k] times, for any [k] up to the task's
    [rerunsLeft], itself at most 2^53 (the range in which [rerunsLeft -= 1]
    is exact), takes exactly [k] reruns: [rerunsLeft] is lowered by [k],
    [queue.rerunTask] is called [k] times for the task (whether or not the
    queue accepts the calls), and no resolution is written, no graph row
    changes and nothing is published. *)
Theorem X5_rerun_budget (that : Env) (message : Message) (gid : string) (k : nat)
    (w : World) (t : Task) :
  let tid := payload_status_taskId message in
  Task_conflicts that = [] -> detached w = [] ->
  exchange message = completedExchange that -> payload_success message = false ->
  routing_taskGraphId message = Some gid ->
  tasks w !! (gid, tid) = Some t -> taskGraphId t = gid -> taskId t = tid ->
  Z.of_nat k ≤ rerunsLeft t -> rerunsLeft t ≤ 2 ^ 53 ->
  let w' := Nat.iter k (handle that message) w in
  tasks w' = <[(gid, tid) := set_rerunsLeft (rerunsLeft t - Z.of_nat k) t]> (tasks w)
  ∧ queueCalls w' = queueCalls w ++ replicate k (rerunTask tid)
  ∧ taskGraphs w' = taskGraphs w
  ∧ published w' = published w
  ∧ detached w' = [].
Proof.
  intros tid Hqt Hd He Hs Hr. revert w t Hd.
  induction k as [|k IH]; intros w t Hd Ht Hk1 Hk2 Hle Hmax w'; subst w'.
  - simpl. rewrite Z.sub_0_r, set_rerunsLeft_same, (insert_id _ _ _ Ht), app_nil_r. done.
  - rewrite Nat.iter_succ_r.
    rewrite (handle_takes_rerun _ _ _ _ _ Hqt Hd He Hs Hr Ht Hk1 Hk2) by lia.
    rewrite js_minus_one_exact by lia.
    fold tid.
    set (t1 := set_rerunsLeft (rerunsLeft t - 1) t).
    set (w1 := add_queueCall _ _).
    assert (tasks w1 !! (gid, tid) = Some t1) as Ht1 by apply lookup_insert_eq.
    assert (Z.of_nat k ≤ rerunsLeft t1) as Hle1 by (subst t1; simpl; lia).
    assert (rerunsLeft t1 ≤ 2 ^ 53) as Hmax1 by (subst t1; simpl; lia).
    destruct (IH w1 t1 Hd Ht1 Hk1 Hk2 Hle1 Hmax1) as (Ha & Hb & Hc & Hp & Hdd).
    rewrite Ha, Hb, Hc, Hp, Hdd. subst w1 t1. simpl.
    rewrite insert_insert_eq, <- app_assoc. simpl.
    repeat split. f_equal. unfold set_rerunsLeft. simpl. f_equal. lia.
Qed.

Lemma X5_witness :
  let w' := Nat.iter 1 (handle Sample.broker_up Sample.unsuccessful_T) Sample.w0 in
  tasks w' !! ("G", "T") = Some (mkTask "G" "T" 0 [] [] None)
  ∧ queueCalls w' = [rerunTask "T"]
  ∧ taskGraphs w' = taskGraphs Sample.w0
  ∧ published w' = [].
Proof.
  pose proof (X5_rerun_budget Sample.broker_up Sample.unsuccessful_T "G" 1 Sample.w0
                Sample.T eq_refl eq_refl eq_refl eq_refl eq_refl eq_refl eq_refl eq_refl
                ltac:(done) ltac:(by vm_compute)) as H.
  cbv zeta in H. destruct H as (Ht & Hq & Hg & Hp & _).
  split; [|split; [|split]].
  - rewrite Ht. by rewrite lookup_insert_eq.
  - exact Hq.
  - exact Hg.
  - exact Hp.
Defined.

(** *** Missing rows *)

(** X6: a message on one of the two bound exchanges whose task cannot be
    found (no row under the graph and task the message names) is rejected
    with NotFound and leaves the world exactly as it was: no row is written,
    nothing is published, the queue is not called and no chain is started. *)
Theorem X6_unknown_task_changes_nothing (that : Env) (message : Message) (w : World) :
  exchange message = completedExchange that ∨ exchange message = failedExchange that ->
  (∀ gid, routing_taskGraphId message = Some gid ->
          tasks w !! (gid, payload_status_taskId message) = None) ->
  Handlers.on_message that message w = (w, Rejected NotFound).
Proof.
  intros He Hno.
  assert (∀ gid, routing_taskGraphId message = Some gid ->
            Task_load gid (payload_status_taskId message) w = (w, Rejected NotFound)) as Hn.
  { intros gid Hr. unfold Task_load. by rewrite (Hno gid Hr). }
  unfold Handlers.on_message.
  destruct (String.eqb_spec (exchange message) (completedExchange that)) as [_|Hne].
  - by apply completed_NotFound.
  - destruct He as [He|He]; [done|]. rewrite He, String.eqb_refl.
    by apply failed_NotFound.
Qed.

Lemma X6_witness :
  Handlers.on_message Sample.broker_up Sample.failed_T Sample.w_empty
  = (Sample.w_empty, Rejected NotFound).
Proof.
  apply (X6_unknown_task_changes_nothing Sample.broker_up Sample.failed_T Sample.w_empty).
  - by right.
  - intros gid _. apply lookup_empty.
Defined.

(** X7: when a task without dependents completes successfully and its graph
    cannot be found, the handler is rejected with NotFound after the task's
    resolution has been stored: the resolution stays written, and nothing
    else changes. *)
Theorem X7_leaf_success_without_graph (that : Env) (message : Message) (w : World)
    (gid : string) (t0 : Task) :
  let tid := payload_status_taskId message in
  payload_success message = true ->
  routing_taskGraphId message = Some gid ->
  tasks w !! (gid, tid) = Some t0 -> taskGraphId t0 = gid -> taskId t0 = tid ->
  let t := commit_base t0 (Task_conflicts that) in
  dependents t = [] ->
  taskGraphs w !! gid = None ->
  Handlers.completed that message w
  = (set_tasks
       (<[(gid, tid) :=
            set_resolution
              (mkResolution true true (payload_resultUrl message) (payload_logsUrl message))
              t]> (tasks w)) w,
     Rejected NotFound).
Proof.
  intros tid Hs Hr Ht Hk1 Hk2 t Hdeps Hg.
  rewrite (completed_run _ _ _ _ _ Hr Ht Hk1 Hk2), Hs. cbv zeta. fold t.
  rewrite Hdeps. simpl.
  apply checkTaskGraphFinished_NotFound. unfold TaskGraph_load. simpl. by rewrite Hg.
Qed.

Lemma X7_witness :
  Handlers.completed Sample.broker_up Sample.succeeded_T Sample.w_orphan
  = (set_tasks
       {[ ("G", "T") :=
            mkTask "G" "T" 1 [] []
              (Some (mkResolution true true (Some "result") (Some "logs"))) ]}
       Sample.w_orphan,
     Rejected NotFound).
Proof.
  rewrite (X7_leaf_success_without_graph Sample.broker_up Sample.succeeded_T
             Sample.w_orphan "G" Sample.T eq_refl eq_refl eq_refl eq_refl eq_refl
             eq_refl eq_refl).
  simpl. by rewrite insert_singleton_eq.
Defined.

(** *** A publication that fails *)

(** X8: when the finish check removes the last entry of [requiresLeft] and
    the broker rejects the event, the check is rejected with PublishError
    but the graph stays committed as finished with nothing published; a
    later check for the same task on that world, with any broker, changes
    nothing, publishes nothing and resolves: the event is never
    published. *)
Theorem X8_finished_event_lost (that that' : Env) (w : World) (gid tid : string)
    (g0 : TaskGraph) :
  TaskGraph_conflicts that = [] -> TaskGraph_conflicts that' = [] ->
  taskGraphs w !! gid = Some g0 -> graphId g0 = gid ->
  tid ∈ requiresLeft g0 -> without (requiresLeft g0) tid = [] ->
  let g' := set_state finished (set_requiresLeft [] g0) in
  publish_accepted that (taskGraphFinished (status g') (routing g')) = false ->
  let r := Handlers.checkTaskGraphFinished that gid tid w in
  r.2 = Rejected PublishError
  ∧ taskGraphs r.1 = <[gid := g']> (taskGraphs w)
  ∧ published r.1 = published w
  ∧ Handlers.checkTaskGraphFinished that' gid tid r.1 = (r.1, Resolved tt).
Proof.
  intros Hq Hq' Hl Hg Hin Hw g' Hpub r.
  assert (Handlers.finish_modifier tid false g0 = (true, g')) as Hm.
  { unfold Handlers.finish_modifier.
    apply (bool_decide_eq_true_2 _) in Hin. unfold contains. rewrite Hin. simpl.
    by rewrite Hw. }
  assert (r = (set_taskGraphs (<[gid := g']> (taskGraphs w)) w, Rejected PublishError))
    as ->.
  { subst r. rewrite (checkTaskGraphFinished_run _ _ _ _ _ Hl Hg), Hq. cbn [commit_base].
    cbv zeta. rewrite Hm. cbn [fst snd]. unfold publish. by rewrite Hpub. }
  cbn [fst snd]. repeat split.
  set (w1 := set_taskGraphs _ w).
  assert (taskGraphs w1 !! gid = Some g') as Hl1 by apply lookup_insert_eq.
  rewrite (checkTaskGraphFinished_run _ _ _ _ g' Hl1 Hg), Hq'. cbn [commit_base].
  cbv zeta. rewrite finish_modifier_settled by (simpl; apply not_elem_of_nil).
  cbn [fst snd]. f_equal. subst w1. simpl. rewrite insert_insert_eq.
  by destruct w.
Qed.

Lemma X8_witness :
  let r := Handlers.checkTaskGraphFinished Sample.broker_down "G" "T" Sample.w0 in
  r.2 = Rejected PublishError
  ∧ state <$> taskGraphs r.1 !! "G" = Some finished
  ∧ published r.1 = []
  ∧ Handlers.checkTaskGraphFinished Sample.broker_up "G" "T" r.1 = (r.1, Resolved tt).
Proof.
  pose proof (X8_finished_event_lost Sample.broker_down Sample.broker_up Sample.w0 "G" "T"
                Sample.G eq_refl eq_refl eq_refl eq_refl ltac:(by apply list_elem_of_here)
                eq_refl eq_refl) as H.
  cbv zeta in H. destruct H as (Hr & Hg & Hp & Hagain).
  split; [exact Hr|]. split; [|split; [exact Hp|exact Hagain]].
  rewrite Hg. by rewrite lookup_insert_eq.
Defined.

(** *** Rows a message does not name *)

(** X9: without concurrent writers of the task and with no chain still
    detached, handling a message touches no task row other than the one the
    message names and no graph row other than that of the graph the message
    names; a message whose routing key names no graph touches no row at
    all. *)
Theorem X9_other_rows_untouched (that : Env) (message : Message) (w : World) :
  Task_conflicts that = [] -> detached w = [] ->
  (∀ key, (∀ gid, routing_taskGraphId message = Some gid ->
                  key ≠ (gid, payload_status_taskId message)) ->
     tasks (handle that message w) !! key = tasks w !! key)
  ∧ (∀ gid', routing_taskGraphId message ≠ Some gid' ->
       taskGraphs (handle that message w) !! gid' = taskGraphs w !! gid').
Proof.
  intros Hqt Hd.
  assert (∀ (h : Promise unit) e, h w = (w, Rejected e) ->
            run_detached that (h w).1 = w) as Hrej.
  { intros h e He. rewrite He. by apply run_detached_nil. }
  assert (∀ (h : Promise unit) gid t' btid,
            h w
            = (add_detached (BlockJob gid btid)
                 (set_tasks (<[(gid, payload_status_taskId message) := t']> (tasks w)) w),
               Resolved tt) ->
            (∀ key, key ≠ (gid, payload_status_taskId message) ->
               tasks (run_detached that (h w).1) !! key = tasks w !! key)
            ∧ (∀ gid', gid ≠ gid' ->
               taskGraphs (run_detached that (h w).1) !! gid' = taskGraphs w !! gid'))
    as Hblock.
  { intros h gid t' btid He. rewrite He. cbn [fst].
    rewrite (run_block_job _ _ _ _ _ Hd). split.
    - intros key Hne. rewrite run_one_tasks. simpl. by rewrite lookup_insert_ne.
    - intros gid' Hne. unfold run_one, run_job.
      pose proof (blockTaskGraph_chain_frame that gid btid
                    (set_tasks (<[(gid, payload_status_taskId message):=t']> (tasks w)) w))
        as (_ & _ & Hg).
      cbv zeta in Hg.
      destruct (Handlers.blockTaskGraph_chain that gid btid _) as [w' [[]|e]];
        cbn [fst] in *; simpl;
        (destruct Hg as [-> | (g0 & _ & _ & ->)];
           [done|by rewrite lookup_insert_ne]). }
  unfold handle, run_to_end, Handlers.on_message.
  destruct (String.eqb (exchange message) (completedExchange that));
    [|destruct (String.eqb (exchange message) (failedExchange that))].
  - destruct (routing_taskGraphId message) as [gid|] eqn:Hr.
    2:{ rewrite (Hrej _ NotFound); [done|]. apply completed_NotFound. by rewrite Hr. }
    destruct (Task_load_cases w gid (payload_status_taskId message))
      as [Hn | (t0 & _ & Ht & Hk1 & Hk2)].
    { rewrite (Hrej _ NotFound); [done|]. apply completed_NotFound.
      intros gid' ?. by simplify_eq. }
    pose proof (completed_run that w message gid t0 Hr Ht Hk1 Hk2) as Hrun.
    cbv zeta in Hrun. rewrite Hqt in Hrun. cbn [commit_base] in Hrun.
    destruct (payload_success message).
    + set (t' := set_resolution _ t0) in *. set (w1 := set_tasks _ w) in *.
      assert (tasks (Handlers.completed that message w).1 = tasks w1
              ∧ detached (Handlers.completed that message w).1 = []
              ∧ ∀ gid', gid ≠ gid' ->
                  taskGraphs (Handlers.completed that message w).1 !! gid'
                  = taskGraphs w !! gid') as (Ha & Hb & Hc).
      { rewrite Hrun. destruct (negb _).
        - pose proof (scheduleDependents_frame that (taskGraphId t') (dependents t') w1)
            as (H1 & H2 & _ & H4).
          unfold Handlers.scheduleDependentTasks. cbv zeta in *.
          split; [done|]. split; [by rewrite H4|]. intros gid' _. by rewrite H2.
        - pose proof (checkTaskGraphFinished_frame that gid (taskId t0) w1)
            as (H1 & H4 & _ & H2).
          cbv zeta in *. split; [done|]. split; [by rewrite H4|]. intros gid' Hne.
          destruct H2 as [-> | (g0 & _ & _ & ->)]; [done|by rewrite lookup_insert_ne]. }
      rewrite (run_detached_nil _ _ Hb). split.
      * intros key Hne. rewrite Ha. subst w1. simpl.
        rewrite lookup_insert_ne; [done|]. intros <-. by apply (Hne gid).
      * intros gid' Hne. apply Hc. by intros ->.
    + case_bool_decide.
      * rewrite Hrun. unfold queue_rerunTask. cbn [fst].
        rewrite run_detached_nil by done. simpl. split; [|done].
        intros key Hne. rewrite lookup_insert_ne; [done|]. intros <-. by apply (Hne gid).
      * rewrite Hk1 in Hrun.
        destruct (Hblock _ gid _ _ Hrun) as (H1 & H2). split.
        -- intros key Hne. apply H1. by apply Hne.
        -- intros gid' Hne. apply H2. by intros ->.
  - destruct (routing_taskGraphId message) as [gid|] eqn:Hr.
    2:{ rewrite (Hrej _ NotFound); [done|]. apply failed_NotFound. by rewrite Hr. }
    destruct (Task_load_cases w gid (payload_status_taskId message))
      as [Hn | (t0 & _ & Ht & Hk1 & Hk2)].
    { rewrite (Hrej _ NotFound); [done|]. apply failed_NotFound.
      intros gid' ?. by simplify_eq. }
    pose proof (failed_run that w message gid t0 Hr Ht Hk1 Hk2) as Hrun.
    destruct (Hblock _ gid _ _ Hrun) as (H1 & H2). split.
    + intros key Hne. apply H1. by apply Hne.
    + intros gid' Hne. apply H2. by intros ->.
  - by rewrite (Hrej _ (UnexpectedExchange (exchange message))).
Qed.

Lemma X9_witness :
  tasks (handle Sample.broker_up Sample.failed_T Sample.w_two) !! ("H", "U")
  = tasks Sample.w_two !! ("H", "U")
  ∧ taskGraphs (handle Sample.broker_up Sample.failed_T Sample.w_two) !! "H"
    = taskGraphs Sample.w_two !! "H".
Proof.
  destruct (X9_other_rows_untouched Sample.broker_up Sample.failed_T Sample.w_two
              eq_refl eq_refl) as (Ht & Hg).
  split.
  - apply Ht. intros gid [= <-]. discriminate.
  - apply Hg. discriminate.
Defined.

(** *** The routing key *)

Lemma split_not_nil sep s : split sep s ≠ [].
Proof.
  destruct s as [|c s]; simpl; [done|].
  destruct (Ascii.eqb c sep); [done|]. by destruct (split sep s).
Qed.

Lemma split_without_sep sep s : has_char sep s = false -> split sep s = [s].
Proof.
  induction s as [|c s IH]; simpl; [done|].
  intros [Hc Hs]%orb_false_iff. rewrite Hc, (IH Hs). done.
Qed.

Lemma split_with_sep sep s :
  has_char sep s = true -> ∃ p q ps, split sep s = p :: q :: ps.
Proof.
  induction s as [|c s IH]; simpl; [done|].
  destruct (Ascii.eqb c sep); simpl.
  - intros _. destruct (split sep s) as [|q ps] eqn:Hs; [by destruct (split_not_nil sep s)|].
    by exists EmptyString, q, ps.
  - intros Hs. destruct (IH Hs) as (p & q & ps & ->). by exists (String c p), q, ps.
Qed.

Lemma split_first_piece sep a b :
  has_char sep a = false ->
  split sep (String.append a (String sep b)) = a :: split sep b.
Proof.
  induction a as [|c a IH]; simpl.
  - intros _. by rewrite Ascii.eqb_refl.
  - intros [Hc Ha]%orb_false_iff. rewrite Hc, (IH Ha). done.
Qed.

(** X10: for a routing key [<a>.<b>] or [<a>.<b>.<more>] whose first two
    pieces hold no dot, both handlers take [<b>] as the taskGraphId. *)
Theorem X10_taskGraphId_is_second_piece (message : Message) (a b more : string) :
  has_char "." a = false -> has_char "." b = false ->
  payload_status_routing message = String.append a (String "." b)
  ∨ payload_status_routing message
    = String.append a (String "." (String.append b (String "." more))) ->
  routing_taskGraphId message = Some b.
Proof.
  intros Ha Hb [Hr | Hr]; unfold routing_taskGraphId; rewrite Hr.
  - by rewrite (split_first_piece _ _ _ Ha), (split_without_sep _ _ Hb).
  - by rewrite (split_first_piece _ _ _ Ha), (split_first_piece _ _ _ Hb).
Qed.

Lemma X10_witness : routing_taskGraphId Sample.failed_T = Some "G".
Proof.
  apply (X10_taskGraphId_is_second_piece Sample.failed_T "sched" "G" "T");
    [reflexivity|reflexivity|by right].
Defined.

(** X11: the taskGraphId both handlers take from the routing key is
    undefined exactly when the routing key holds no dot. *)
Theorem X11_taskGraphId_undefined_iff_no_dot (message : Message) :
  routing_taskGraphId message = None
  <-> has_char "." (payload_status_routing message) = false.
Proof.
  unfold routing_taskGraphId. split.
  - intros Hn. destruct (has_char "." (payload_status_routing message)) eqn:Hc; [|done].
    destruct (split_with_sep _ _ Hc) as (p & q & ps & Hs). by rewrite Hs in Hn.
  - intros Hc. by rewrite (split_without_sep _ _ Hc).
Qed.

Lemma X11_witness :
  routing_taskGraphId (mkMessage "task-failed" "sched" "T" false None None) = None.
Proof.
  by apply (proj2 (X11_taskGraphId_undefined_iff_no_dot
                     (mkMessage "task-failed" "sched" "T" false None None))).
Defined.

(** *** How the two handlers settle *)

Lemma scheduleDependents_settles that gid ds w :
  let r := (Handlers.scheduleDependents that gid ds w).2 in
  r = Resolved tt ∨ r = Rejected NotFound ∨ r = Rejected QueueError.
Proof.
  revert w. induction ds as [|d ds IH]; intros w; simpl; [by left|].
  rewrite then_run.
  destruct (Task_load_cases w gid d) as [-> | (dt & -> & _)]; [by auto|].
  rewrite then_run, then_run.
  destruct (forallb _ _); [|apply IH].
  unfold queue_scheduleTask.
  destruct (schedule_accepted that d); [apply IH|by auto].
Qed.

Lemma checkTaskGraphFinished_settles that gid tid w :
  let r := (Handlers.checkTaskGraphFinished that gid tid w).2 in
  r = Resolved tt ∨ r = Rejected NotFound ∨ r = Rejected PublishError.
Proof.
  destruct (TaskGraph_load_cases w gid) as [Hn|(g0 & _ & Hl & Hg)]; cbv zeta.
  - rewrite (checkTaskGraphFinished_NotFound _ _ _ _ Hn). by auto.
  - rewrite (checkTaskGraphFinished_run _ _ _ _ _ Hl Hg). cbv zeta.
    destruct (Handlers.finish_modifier _ _ _).1; [|by auto].
    unfold publish. destruct (publish_accepted that _); by auto.
Qed.

Lemma failed_settles that message w :
  let r := (Handlers.failed that message w).2 in
  r = Resolved tt ∨ r = Rejected NotFound.
Proof.
  cbv zeta. destruct (routing_taskGraphId message) as [gid|] eqn:Hr;
    [|rewrite failed_NotFound by (by rewrite Hr); by auto].
  destruct (Task_load_cases w gid (payload_status_taskId message))
    as [Hn | (t0 & _ & Ht & Hk1 & Hk2)].
  { rewrite failed_NotFound; [by auto|]. intros gid' ?. by simplify_eq. }
  rewrite (failed_run _ _ _ _ _ Hr Ht Hk1 Hk2). by auto.
Qed.

Lemma completed_settles that message w :
  let r := (Handlers.completed that message w).2 in
  r = Resolved tt ∨ r = Rejected NotFound ∨ r = Rejected QueueError
  ∨ r = Rejected PublishError.
Proof.
  cbv zeta. destruct (routing_taskGraphId message) as [gid|] eqn:Hr;
    [|rewrite completed_NotFound by (by rewrite Hr); by auto].
  destruct (Task_load_cases w gid (payload_status_taskId message))
    as [Hn | (t0 & _ & Ht & Hk1 & Hk2)].
  { rewrite completed_NotFound; [by auto|]. intros gid' ?. by simplify_eq. }
  rewrite (completed_run _ _ _ _ _ Hr Ht Hk1 Hk2). cbv zeta.
  set (t := commit_base t0 (Task_conflicts that)).
  destruct (payload_success message).
  - set (t' := set_resolution _ t). set (w1 := set_tasks _ w).
    destruct (negb _).
    + unfold Handlers.scheduleDependentTasks.
      destruct (scheduleDependents_settles that (taskGraphId t') (dependents t') w1)
        as [H | [H | H]]; cbv zeta in H; rewrite H; by auto.
    + destruct (checkTaskGraphFinished_settles that gid (taskId t) w1)
        as [H | [H | H]]; cbv zeta in H; rewrite H; by auto.
  - case_bool_decide.
    + unfold queue_rerunTask. cbn [snd]. destruct (rerun_accepted that _); by auto.
    + by auto.
Qed.

(** *** Construction and setup *)

Lemma truthy_Some (s : option string) :
  truthy s = true <-> ∃ x, s = Some x ∧ x ≠ EmptyString.
Proof.
  unfold truthy. destruct s as [x|].
  - destruct (String.eqb_spec x EmptyString) as [-> | Hne]; simpl.
    + split; [done|]. by intros (? & [= <-] & ?).
    + split; [|done]. intros _. by exists x.
  - split; [done|]. by intros (? & ? & _).
Qed.

Lemma constructor_returns_iff (options : Options) (this : Object) :
  Setup.constructor options = Returns this <->
  options_Task options = true ∧ options_TaskGraph options = true
  ∧ options_publisher options = true ∧ options_queue options = true
  ∧ options_queueEvents options = true
  ∧ ∃ c s, options_connectionString options = Some c ∧ c ≠ EmptyString
           ∧ options_schedulerId options = Some s ∧ s ≠ EmptyString
           ∧ this = mkObject s c (options_queueName options) None.
Proof.
  unfold Setup.constructor.
  destruct options as [oT oG oP oQ oE oc os oq]; simpl.
  destruct oT, oG, oP, oQ, oE; simpl;
    try (split; [done|by intros (?&?&?&?&?&?)]).
  destruct (truthy oc) eqn:Hc; simpl.
  2:{ split; [done|].
      intros (_ & _ & _ & _ & _ & c & s & -> & Hne & _).
      assert (truthy (Some c) = true) as Ht by (apply truthy_Some; by exists c).
      by rewrite Ht in Hc. }
  destruct (truthy os) eqn:Hs; simpl.
  2:{ split; [done|].
      intros (_ & _ & _ & _ & _ & c & s & _ & _ & -> & Hne & _).
      assert (truthy (Some s) = true) as Ht by (apply truthy_Some; by exists s).
      by rewrite Ht in Hs. }
  apply truthy_Some in Hc as (c & -> & Hcne). apply truthy_Some in Hs as (s & -> & Hsne).
  simpl. split.
  - intros [= <-]. repeat (split; [done|]). by exists c, s.
  - intros (_ & _ & _ & _ & _ & c' & s' & [= <-] & _ & [= <-] & _ & ->). done.
Qed.

(** X13: the constructor returns exactly when [options.Task] and
    [options.TaskGraph] are given, the publisher, queue and queueEvents are
    instances of their classes, and connectionString and schedulerId are
    non-empty strings (an empty string is refused like a missing one);
    queueName is not required.  It then stores the three strings with
    [listener] null, and otherwise throws an AssertionError. *)
Theorem X13_constructor (options : Options) :
  (∀ this, Setup.constructor options = Returns this <->
     options_Task options = true ∧ options_TaskGraph options = true
     ∧ options_publisher options = true ∧ options_queue options = true
     ∧ options_queueEvents options = true
     ∧ ∃ c s, options_connectionString options = Some c ∧ c ≠ EmptyString
              ∧ options_schedulerId options = Some s ∧ s ≠ EmptyString
              ∧ this = mkObject s c (options_queueName options) None)
  ∧ ((∃ this, Setup.constructor options = Returns this)
     ∨ (∃ msg, Setup.constructor options = Throws (AssertionError msg))).
Proof.
  split; [intros this; apply constructor_returns_iff|].
  unfold Setup.constructor.
  repeat (match goal with |- context [if ?b then _ else _] => destruct b end;
          [right; by eexists|]).
  left. by eexists.
Qed.

Lemma X13_witness :
  Setup.constructor SampleSetup.options = Returns (mkObject "sched" "amqp://broker" None None)
  ∧ (∃ msg, Setup.constructor SampleSetup.options_empty_id = Throws (AssertionError msg)).
Proof.
  destruct (X13_constructor SampleSetup.options) as (Hiff & _).
  destruct (X13_constructor SampleSetup.options_empty_id) as (Hiff' & [[this Hret] | Hthrow]).
  - exfalso. apply Hiff' in Hret as (_ & _ & _ & _ & _ & c & s & _ & _ & Hs & Hne & _).
    simpl in Hs. injection Hs as <-. by apply Hne.
  - split; [|exact Hthrow]. apply Hiff. repeat (split; [reflexivity|]).
    by exists "amqp://broker", "sched".
Defined.

(** X14: on an object the constructor returned, [setup] does not throw: it
    creates the listener with the stored connectionString and queueName,
    binds the task-completed exchange and then the task-failed exchange,
    each with the routing [<schedulerId>.#] for a non-empty schedulerId,
    installs the message callback, and resumes only a listener that has
    connected; the returned promise tells how far it got. *)
Theorem X14_first_setup (that : Env) (connects resumes : bool) (options : Options)
    (this : Object) :
  Setup.constructor options = Returns this ->
  let r := Setup.setup that connects resumes this in
  r.2 = Returns (if connects then if resumes then Listening else ResumeFailed
                 else ConnectFailed)
  ∧ this_schedulerId r.1 = this_schedulerId this
  ∧ this_schedulerId this ≠ EmptyString
  ∧ ∃ l, this_listener r.1 = Some l
      ∧ Some (listener_connectionString l) = options_connectionString options
      ∧ listener_queueName l = options_queueName options
      ∧ listener_bindings l
        = [mkBinding (completedExchange that) (String.append (this_schedulerId this) ".#");
           mkBinding (failedExchange that) (String.append (this_schedulerId this) ".#")]
      ∧ listener_on_message l = true
      ∧ listener_connected l = connects
      ∧ listener_resumed l = connects && resumes.
Proof.
  intros Hc r.
  apply constructor_returns_iff in Hc
    as (_ & _ & _ & _ & _ & c & s & Hoc & _ & Hos & Hsne & ->).
  subst r. unfold Setup.setup. simpl. rewrite Hoc.
  destruct connects, resumes; simpl; repeat split; try done;
    eexists; repeat split; done.
Qed.

Lemma X14_witness :
  let r := Setup.setup Sample.broker_up true true
             (mkObject "sched" "amqp://broker" None None) in
  r.2 = Returns Listening
  ∧ (listener_bindings <$> this_listener r.1)
    = Some [mkBinding "task-completed" "sched.#"; mkBinding "task-failed" "sched.#"].
Proof.
  pose proof (X14_first_setup Sample.broker_up true true SampleSetup.options
                (mkObject "sched" "amqp://broker" None None) eq_refl) as H.
  cbv zeta in H. destruct H as (Hr & _ & _ & l & Hl & _ & _ & Hb & _).
  split; [exact Hr|]. rewrite Hl. simpl. by rewrite Hb.
Defined.

(** X15: after a call of [setup], whatever it did, every further call of
    [setup] throws "Cannot setup twice!" and leaves the object as it is; this
    includes a first call whose listener failed to connect or to resume,
    because the listener is stored before it connects. *)
Theorem X15_setup_twice (that that' : Env) (connects resumes connects' resumes' : bool)
    (this : Object) :
  let this1 := (Setup.setup that connects resumes this).1 in
  Setup.setup that' connects' resumes' this1
  = (this1, Throws (AssertionError "Cannot setup twice!")).
Proof.
  cbv zeta. unfold Setup.setup at 2 3.
  destruct (this_listener this) as [l|] eqn:Hl.
  - cbn [fst]. unfold Setup.setup. by rewrite Hl.
  - destruct connects, resumes; reflexivity.
Qed.

(** X16: the exchanges [setup] binds are the exchanges the callback
    dispatches: a message on the exchange of any binding of the listener is
    never rejected as coming from an unexpected exchange, and a message on
    an exchange of no binding always is, with the world unchanged. *)
Theorem X16_bound_exchanges_are_dispatched (that : Env) (connects resumes : bool)
    (this : Object) (l : Listener) (message : Message) (w : World) :
  this_listener this = None ->
  this_listener (Setup.setup that connects resumes this).1 = Some l ->
  (exchange message ∈ binding_exchange <$> listener_bindings l ->
   ∀ e, (Handlers.on_message that message w).2 ≠ Rejected (UnexpectedExchange e))
  ∧ (exchange message ∉ binding_exchange <$> listener_bindings l ->
     Handlers.on_message that message w
     = (w, Rejected (UnexpectedExchange (exchange message)))).
Proof.
  intros Hnull Hl.
  assert (binding_exchange <$> listener_bindings l
          = [completedExchange that; failedExchange that]) as ->.
  { unfold Setup.setup in Hl. rewrite Hnull in Hl.
    destruct connects, resumes; simpl in Hl; by injection Hl as <-. }
  split.
  - intros Hin e. unfold Handlers.on_message.
    destruct (String.eqb_spec (exchange message) (completedExchange that)) as [He|Hne].
    { destruct (completed_settles that message w) as [H | [H | [H | H]]];
        cbv zeta in H; by rewrite H. }
    destruct (String.eqb_spec (exchange message) (failedExchange that)) as [He|Hne'].
    { destruct (failed_settles that message w) as [H | H]; cbv zeta in H; by rewrite H. }
    apply elem_of_cons in Hin as [Hin | Hin]; [done|].
    apply elem_of_cons in Hin as [Hin | Hin]; [done|]. by apply elem_of_nil in Hin.
  - intros Hnin. unfold Handlers.on_message.
    destruct (String.eqb_spec (exchange message) (completedExchange that)) as [He|_].
    { destruct Hnin. rewrite He. apply list_elem_of_here. }
    destruct (String.eqb_spec (exchange message) (failedExchange that)) as [He|_]; [|done].
    destruct Hnin. rewrite He. apply list_elem_of_further, list_elem_of_here.
Qed.

Lemma X16_witness :
  (∀ e, (Handlers.on_message Sample.broker_up Sample.failed_T Sample.w0).2
        ≠ Rejected (UnexpectedExchange e))
  ∧ Handlers.on_message Sample.broker_up Sample.stray Sample.w0
    = (Sample.w0, Rejected (UnexpectedExchange "task-pending")).
Proof.
  pose proof (X16_bound_exchanges_are_dispatched Sample.broker_up true true
                (mkObject "sched" "amqp://broker" None None) _ Sample.failed_T Sample.w0
                eq_refl eq_refl) as (Hin & _).
  pose proof (X16_bound_exchanges_are_dispatched Sample.broker_up true true
                (mkObject "sched" "amqp://broker" None None) _ Sample.stray Sample.w0
                eq_refl eq_refl) as (_ & Hout).
  split.
  - apply Hin. simpl. apply list_elem_of_further, list_elem_of_here.
  - apply Hout. simpl. intros Hin'.
    apply elem_of_cons in Hin' as [Heq | Hin']; [discriminate Heq|].
    apply elem_of_cons in Hin' as [Heq | Hin']; [discriminate Heq|].
    by apply elem_of_nil in Hin'.
Defined.

(** X17: when the block transition turns a running graph to blocked and the
    broker rejects the event, the chain is rejected with PublishError but
    the graph stays committed as blocked with nothing published; a later
    block transition for that graph, for any blocking task and with any
    broker, changes nothing, publishes nothing and resolves: the event is
    never published. *)
Theorem X17_blocked_event_lost (that that' : Env) (w : World)
    (gid btid btid' : string) (g0 : TaskGraph) :
  TaskGraph_conflicts that = [] -> TaskGraph_conflicts that' = [] ->
  taskGraphs w !! gid = Some g0 -> graphId g0 = gid ->
  state g0 = running ->
  let g' := set_state blocked g0 in
  publish_accepted that (taskGraphBlocked (status g') btid (routing g')) = false ->
  let r := Handlers.blockTaskGraph_chain that gid btid w in
  r.2 = Rejected PublishError
  ∧ taskGraphs r.1 = <[gid := g']> (taskGraphs w)
  ∧ published r.1 = published w
  ∧ Handlers.blockTaskGraph_chain that' gid btid' r.1 = (r.1, Resolved tt).
Proof.
  intros Hq Hq' Hl Hg Hrun g' Hpub r.
  assert (Handlers.block_modifier false g0 = (true, g')) as Hm.
  { unfold Handlers.block_modifier. by rewrite bool_decide_eq_true_2. }
  assert (r = (set_taskGraphs (<[gid := g']> (taskGraphs w)) w, Rejected PublishError))
    as ->.
  { subst r. rewrite (blockTaskGraph_chain_run _ _ _ _ _ Hl Hg), Hq. cbn [commit_base].
    cbv zeta. rewrite Hm. cbn [fst snd]. unfold publish. by rewrite Hpub. }
  cbn [fst snd]. repeat split.
  set (w1 := set_taskGraphs _ w).
  assert (taskGraphs w1 !! gid = Some g') as Hl1 by apply lookup_insert_eq.
  rewrite (blockTaskGraph_chain_run _ _ _ _ g' Hl1 Hg), Hq'. cbn [commit_base].
  cbv zeta.
  assert (Handlers.block_modifier false g' = (false, g')) as -> by done.
  cbn [fst snd]. f_equal. subst w1. simpl. rewrite insert_insert_eq.
  by destruct w.
Qed.

Lemma X17_witness :
  let r := Handlers.blockTaskGraph_chain Sample.broker_down "G" "T" Sample.w0 in
  r.2 = Rejected PublishError
  ∧ state <$> taskGraphs r.1 !! "G" = Some blocked
  ∧ published r.1 = []
  ∧ Handlers.blockTaskGraph_chain Sample.broker_up "G" "U" r.1 = (r.1, Resolved tt).
Proof.
  pose proof (X17_blocked_event_lost Sample.broker_down Sample.broker_up Sample.w0
                "G" "T" "U" Sample.G eq_refl eq_refl eq_refl eq_refl eq_refl eq_refl) as H.
  cbv zeta in H. destruct H as (Hr & Hg & Hp & Hagain).
  split; [exact Hr|]. split; [|split; [exact Hp|exact Hagain]].
  rewrite Hg. by rewrite lookup_insert_eq.
Defined.

(** *** Conflicts *)

(** X18: a finish check or a block transition whose write conflicts with
    other writers ends exactly as the same operation does, without
    conflict, on the store in which the graph row is the row found on the
    last reload: same rows, same publications, same settlement.  Nothing of
    the refused attempts is left, in particular not the value their modifier
    gave to [taskGraphFinishedNow] or [wasRunning]. *)
Theorem X18_conflict_serialises (that : Env) (w : World) (gid tid : string)
    (g0 : TaskGraph) :
  taskGraphs w !! gid = Some g0 -> graphId g0 = gid ->
  let g1 := commit_base g0 (TaskGraph_conflicts that) in
  graphId g1 = gid ->
  let w1 := set_taskGraphs (<[gid := g1]> (taskGraphs w)) w in
  Handlers.checkTaskGraphFinished that gid tid w
  = Handlers.checkTaskGraphFinished (without_graph_conflicts that) gid tid w1
  ∧ Handlers.blockTaskGraph_chain that gid tid w
    = Handlers.blockTaskGraph_chain (without_graph_conflicts that) gid tid w1.
Proof.
  intros Hl Hg g1 Hg1 w1.
  assert (taskGraphs w1 !! gid = Some g1) as Hl1 by apply lookup_insert_eq.
  assert (∀ g', set_taskGraphs (<[gid := g']> (taskGraphs w1)) w1
                = set_taskGraphs (<[gid := g']> (taskGraphs w)) w) as Hw.
  { intros g'. subst w1. unfold set_taskGraphs. simpl. by rewrite insert_insert_eq. }
  split.
  - rewrite (checkTaskGraphFinished_run _ _ _ _ _ Hl Hg),
      (checkTaskGraphFinished_run _ _ _ _ _ Hl1 Hg1).
    cbn [without_graph_conflicts TaskGraph_conflicts commit_base]. fold g1. cbv zeta.
    rewrite Hw. by destruct (Handlers.finish_modifier tid false g1).1.
  - rewrite (blockTaskGraph_chain_run _ _ _ _ _ Hl Hg),
      (blockTaskGraph_chain_run _ _ _ _ _ Hl1 Hg1).
    cbn [without_graph_conflicts TaskGraph_conflicts commit_base]. fold g1. cbv zeta.
    rewrite Hw. by destruct (Handlers.block_modifier false g1).1.
Qed.

Lemma X18_witness :
  let w1 := set_taskGraphs (<["G" := Sample.G]> (taskGraphs Sample.w_TU)) Sample.w_TU in
  Handlers.checkTaskGraphFinished Sample.contended "G" "T" Sample.w_TU
  = Handlers.checkTaskGraphFinished (without_graph_conflicts Sample.contended) "G" "T" w1
  ∧ published (Handlers.checkTaskGraphFinished Sample.contended "G" "T" Sample.w_TU).1
    = [taskGraphFinished (mkStatus "G" finished) "route.G"].
Proof.
  pose proof (X18_conflict_serialises Sample.contended Sample.w_TU "G" "T" Sample.G_TU
                eq_refl eq_refl eq_refl) as H.
  cbv zeta in H. destruct H as (Hc & _).
  split; [exact Hc|]. rewrite Hc. vm_compute. reflexivity.
Defined.
